(** * tap-hubspot: the OAuth2 authenticator of [tap_hubspot/hotglue_auth.py]
    and the configuration schema of [tap_hubspot/tap.py].

    The Python code is embedded as programs over a handful of atomic
    effects (reading the clock, reading and writing an attribute of the
    shared tap object, one POST, one log line). [exec] runs a program to
    completion as a state-and-exception function; [step] runs one effect,
    which is what the interleaving of several callers is built from. *)

From stdpp Require Import gmap strings list fin_maps pretty.
From Stdlib Require Import ZArith Lia.

Set Warnings "-register-all".
Local Open Scope string_scope.
Local Open Scope Z_scope.

(** ** Python values *)

(** The values the code handles: what [json.loads] produces (numbers
    restricted to integers), which is also what ends up stored on the tap
    object and what a configuration file holds. *)
Inductive pyval : Type :=
| PNone
| PBool (b : bool)
| PInt (z : Z)
| PStr (s : string)
| PList (l : list pyval)
| PDict (d : gmap string pyval).

(** [bool(v)] *)
Definition py_truthy (v : pyval) : bool :=
  match v with
  | PNone => false
  | PBool b => b
  | PInt z => negb (z =? 0)
  | PStr s => negb (String.eqb s "")
  | PList l => negb (Nat.eqb (length l) 0)
  | PDict d => negb (Nat.eqb (size d) 0)
  end.

(** The integer an operand of [+] or [-] stands for; [bool] is a subclass
    of [int] in Python. *)
Definition py_int (v : pyval) : option Z :=
  match v with
  | PInt z => Some z
  | PBool b => Some (if b then 1 else 0)
  | _ => None
  end.

(** ** Exceptions *)

Inductive exn : Type :=
| HTTPError (status : Z) (reason url : string)
    (* requests.exceptions.HTTPError, from raise_for_status *)
| RuntimeError (response : pyval) (cause : exn)
    (* f"Failed OAuth login, response was '{response}'. {cause}" *)
| ValueError (msg : string)
| KeyError (key : string)
| TypeError
| AttributeError (name : string)
| JSONDecodeError
    (* raised by Response.json() on a body that is not JSON *)
| ConnectionError
    (* raised by requests.post when no response is obtained *)
| ConfigValidationError (missing : string).

Inductive result (A : Type) : Type :=
| Ok (a : A)
| Raise (e : exn).
Arguments Ok {A} a.
Arguments Raise {A} e.

(** ** The outside world *)

(** What [requests.post] hands back. [json_body] is the outcome of
    [Response.json()]: [None] when the body does not parse. *)
Record Response : Type := mkResponse {
  status_code : Z;
  reason : string;
  text : string;
  json_body : option pyval;
}.

Inductive outcome : Type :=
| NetworkError
| Replied (r : Response).

Inductive event : Type :=
| EvClock (t : Z)
| EvPost (url : string) (data : gmap string pyval)
| EvLog (msg : string).

(** The environment the run happens in: the [k]-th reading of
    [round(datetime.utcnow().timestamp())], the provider's reaction to the
    [k]-th POST, and CPython's [repr] of lists and dicts. *)
Record Env : Type := mkEnv {
  now_at : nat -> Z;
  post_at : nat -> string -> gmap string pyval -> outcome;
  py_repr : pyval -> string;
}.

(** [tap]: the attributes set on the tap object shared by all streams.
    [trace]: the effects so far, newest first. *)
Record World : Type := mkWorld {
  tap : gmap string pyval;
  trace : list event;
}.

Fixpoint ticks (tr : list event) : nat :=
  match tr with
  | [] => O
  | EvClock _ :: r => S (ticks r)
  | _ :: r => ticks r
  end.

Fixpoint posts (tr : list event) : nat :=
  match tr with
  | [] => O
  | EvPost _ _ :: r => S (posts r)
  | _ :: r => posts r
  end.

(** ** Programs *)

(** A program is a tree of atomic effects ending in a value or in a raised
    exception. *)
Inductive Prog (A : Type) : Type :=
| Ret (a : A)
| Throw (e : exn)
| Clock (k : Z -> Prog A)
    (* round(datetime.utcnow().timestamp()) *)
| GetAttr (name : string) (k : option pyval -> Prog A)
    (* self._tap.<name>; None when the attribute is not set *)
| SetAttr (name : string) (v : pyval) (k : Prog A)
    (* self._tap.<name> = v *)
| Post (url : string) (data : gmap string pyval) (k : outcome -> Prog A)
    (* requests.post(url, data=data) *)
| Log (msg : string) (k : Prog A).
    (* self.logger.info(msg) *)
Arguments Ret {A} a.
Arguments Throw {A} e.
Arguments Clock {A} k.
Arguments GetAttr {A} name k.
Arguments SetAttr {A} name v k.
Arguments Post {A} url data k.
Arguments Log {A} msg k.

Fixpoint bind {A B} (c : Prog A) (f : A -> Prog B) : Prog B :=
  match c with
  | Ret a => f a
  | Throw e => Throw e
  | Clock k => Clock (fun t => bind (k t) f)
  | GetAttr n k => GetAttr n (fun v => bind (k v) f)
  | SetAttr n v k => SetAttr n v (bind k f)
  | Post u d k => Post u d (fun o => bind (k o) f)
  | Log m k => Log m (bind k f)
  end.

(** [try: c  except Exception as ex: h ex] *)
Fixpoint try_except {A} (c : Prog A) (h : exn -> Prog A) : Prog A :=
  match c with
  | Ret a => Ret a
  | Throw e => h e
  | Clock k => Clock (fun t => try_except (k t) h)
  | GetAttr n k => GetAttr n (fun v => try_except (k v) h)
  | SetAttr n v k => SetAttr n v (try_except k h)
  | Post u d k => Post u d (fun o => try_except (k o) h)
  | Log m k => Log m (try_except k h)
  end.

Declare Scope py_scope.
Delimit Scope py_scope with py.
Notation "x <- c ;; k" := (bind c (fun x => k))
  (at level 100, c at next level, right associativity) : py_scope.
Notation "c ;;; k" := (bind c (fun _ => k))
  (at level 100, right associativity) : py_scope.
Local Open Scope py_scope.

(** ** Running programs *)

Definition tick (t : Z) (w : World) : World :=
  mkWorld (tap w) (EvClock t :: trace w).

Definition store (name : string) (v : pyval) (w : World) : World :=
  mkWorld (<[name := v]> (tap w)) (trace w).

Definition sent (url : string) (data : gmap string pyval) (w : World) : World :=
  mkWorld (tap w) (EvPost url data :: trace w).

Definition logged (msg : string) (w : World) : World :=
  mkWorld (tap w) (EvLog msg :: trace w).

(** One atomic effect of a program; [None] when it has finished. *)
Definition step {A} (env : Env) (p : Prog A) (w : World)
  : option (Prog A * World) :=
  match p with
  | Ret _ | Throw _ => None
  | Clock k =>
      let t := now_at env (ticks (trace w)) in Some (k t, tick t w)
  | GetAttr n k => Some (k (tap w !! n), w)
  | SetAttr n v k => Some (k, store n v w)
  | Post u d k => Some (k (post_at env (posts (trace w)) u d), sent u d w)
  | Log m k => Some (k, logged m w)
  end.

(** A program run to completion by one caller. *)
Fixpoint exec {A} (env : Env) (p : Prog A) (w : World) : result A * World :=
  match p with
  | Ret a => (Ok a, w)
  | Throw e => (Raise e, w)
  | Clock k =>
      let t := now_at env (ticks (trace w)) in exec env (k t) (tick t w)
  | GetAttr n k => exec env (k (tap w !! n)) w
  | SetAttr n v k => exec env k (store n v w)
  | Post u d k =>
      exec env (k (post_at env (posts (trace w)) u d)) (sent u d w)
  | Log m k => exec env k (logged m w)
  end.

(** ** Primitive operations *)

(** [round(datetime.utcnow().timestamp())] *)
Definition utcnow_timestamp : Prog Z := Clock Ret.

(** [self._tap.<name>] *)
Definition getattr (name : string) : Prog pyval :=
  GetAttr name (fun o => match o with
                         | Some v => Ret v
                         | None => Throw (AttributeError name)
                         end).

(** [hasattr(self._tap, <name>)] *)
Definition hasattr (name : string) : Prog bool :=
  GetAttr name (fun o => Ret (bool_decide (is_Some o))).

(** [self._tap.<name> = v] *)
Definition setattr (name : string) (v : pyval) : Prog unit :=
  SetAttr name v (Ret tt).

(** [self.logger.info(msg)] *)
Definition logger_info (msg : string) : Prog unit := Log msg (Ret tt).

(** [requests.post(url, data=data)] *)
Definition requests_post (url : string) (data : gmap string pyval)
  : Prog Response :=
  Post url data (fun o => match o with
                          | NetworkError => Throw ConnectionError
                          | Replied r => Ret r
                          end).

(** [Response.raise_for_status()] of requests: an error for 4xx and 5xx. *)
Definition raise_for_status (url : string) (r : Response) : Prog unit :=
  if ((400 <=? status_code r) && (status_code r <? 600))%bool
  then Throw (HTTPError (status_code r) (reason r) url)
  else Ret tt.

(** [Response.json()] *)
Definition response_json (r : Response) : Prog pyval :=
  match json_body r with
  | Some v => Ret v
  | None => Throw JSONDecodeError
  end.

(** [v[key]] for a string key *)
Definition py_getitem (v : pyval) (key : string) : Prog pyval :=
  match v with
  | PDict d => match d !! key with
               | Some x => Ret x
               | None => Throw (KeyError key)
               end
  | _ => Throw TypeError
  end.

(** [a + b] and [a - b] on integers (and booleans) *)
Definition py_add (a b : pyval) : Prog pyval :=
  match py_int a, py_int b with
  | Some x, Some y => Ret (PInt (x + y))
  | _, _ => Throw TypeError
  end.

Definition py_sub (a b : pyval) : Prog Z :=
  match py_int a, py_int b with
  | Some x, Some y => Ret (x - y)
  | _, _ => Throw TypeError
  end.

(** [str(v)], as an f-string interpolates it *)
Definition py_str (env : Env) (v : pyval) : string :=
  match v with
  | PNone => "None"
  | PBool true => "True"
  | PBool false => "False"
  | PInt z => pretty z
  | PStr s => s
  | PList _ | PDict _ => py_repr env v
  end.

(** ** [OAuth2Authenticator] *)

(** The fields of an authenticator instance. [self._tap] is the shared tap
    object, whose attributes live in the [World]. [_auth_headers] is the
    header dict of the base class [APIAuthenticatorBase]. *)
Record OAuth2Authenticator : Type := mkAuth {
  _tap_config : gmap string pyval;
  _auth_endpoint : string;
  _auth_headers : gmap string string;
}.

(** [__init__]: the credential attributes are created on the tap object
    only when it does not carry them yet. *)
Definition __init__ (config : gmap string pyval) : Prog OAuth2Authenticator :=
  has_token <- hasattr "access_token";;
  (if negb has_token then setattr "access_token" PNone else Ret tt);;;
  has_expiry <- hasattr "expires_in";;
  (if negb has_expiry then setattr "expires_in" PNone else Ret tt);;;
  Ret (mkAuth config "https://api.hubapi.com/oauth/v1/token" ∅).

(** [auth_endpoint] *)
Definition auth_endpoint (self : OAuth2Authenticator) : Prog string :=
  if negb (py_truthy (PStr (_auth_endpoint self)))
  then Throw (ValueError "Authorization endpoint not set.")
  else Ret (_auth_endpoint self).

(** [self._tap_config[key]] *)
Definition config_item (self : OAuth2Authenticator) (key : string)
  : Prog pyval :=
  match _tap_config self !! key with
  | Some v => Ret v
  | None => Throw (KeyError key)
  end.

(** [oauth_request_body] *)
Definition oauth_request_body (self : OAuth2Authenticator)
  : Prog (gmap string pyval) :=
  client_id <- config_item self "client_id";;
  client_secret <- config_item self "client_secret";;
  redirect_uri <- config_item self "redirect_uri";;
  refresh_token <- config_item self "refresh_token";;
  Ret (<["client_id" := client_id]>
       (<["client_secret" := client_secret]>
        (<["redirect_uri" := redirect_uri]>
         (<["refresh_token" := refresh_token]>
          (<["grant_type" := PStr "refresh_token"]> ∅))))).

(** [oauth_request_payload] *)
Definition oauth_request_payload (self : OAuth2Authenticator)
  : Prog (gmap string pyval) :=
  oauth_request_body self.

(** [is_token_valid]; [or] evaluates its operands left to right and stops
    at the first true one. *)
Definition is_token_valid : Prog bool :=
  now <- utcnow_timestamp;;
  access_token <- getattr "access_token";;
  if negb (py_truthy access_token) then Ret false else
  expires_in <- getattr "expires_in";;
  if negb (py_truthy expires_in) then Ret false else
  expires_in' <- getattr "expires_in";;
  remaining <- py_sub expires_in' (PInt now);;
  Ret (negb (remaining <? 60)).

(** [update_access_token] *)
Definition update_access_token (self : OAuth2Authenticator) : Prog unit :=
  request_time <- utcnow_timestamp;;
  auth_request_payload <- oauth_request_payload self;;
  url <- auth_endpoint self;;
  token_response <- requests_post url auth_request_payload;;
  try_except
    (raise_for_status url token_response;;;
     logger_info "OAuth authorization attempt was successful.")
    (fun ex =>
       response <- response_json token_response;;
       Throw (RuntimeError response ex));;;
  token_json <- response_json token_response;;
  access_token <- py_getitem token_json "access_token";;
  setattr "access_token" access_token;;;
  lifetime <- py_getitem token_json "expires_in";;
  expires_in <- py_add (PInt request_time) lifetime;;
  setattr "expires_in" expires_in;;;
  logger_info "Generated new access token".

(** [auth_headers]; [super().auth_headers] is the header dict of the base
    class. *)
Definition auth_headers (env : Env) (self : OAuth2Authenticator)
  : Prog (gmap string string) :=
  valid <- is_token_valid;;
  (if negb valid then update_access_token self else Ret tt);;;
  let result := _auth_headers self in
  access_token <- getattr "access_token";;
  Ret (<["Authorization" := "Bearer " +:+ py_str env access_token]> result).

(** ** Configuration schema ([tap.py]) *)

Inductive jsontype : Type :=
| StringType
| DateTimeType
| ArrayType (items : jsontype).

(** [th.Property(name, type, required=...)] *)
Record Property : Type := mkProperty {
  prop_name : string;
  prop_type : jsontype;
  prop_required : bool;
}.

(** [TapHubspot.config_jsonschema] *)
Definition config_jsonschema : list Property :=
  [ mkProperty "client_id" StringType true;
    mkProperty "client_secret" StringType true;
    mkProperty "refresh_token" StringType true;
    mkProperty "start_date" DateTimeType false;
    mkProperty "properties" (ArrayType StringType) true ].

(** JSON-schema typing of a value; a date-time is a string (its format is
    not checked by the validator). *)
Fixpoint has_type (t : jsontype) (v : pyval) : bool :=
  match t, v with
  | StringType, PStr _ => true
  | DateTimeType, PStr _ => true
  | ArrayType items, PList l => forallb (has_type items) l
  | _, _ => false
  end.

(** Whether a configuration violates a property of the schema: a required
    one that is missing, or a present one of the wrong type. Keys the
    schema does not declare are accepted. *)
Definition violates (config : gmap string pyval) (p : Property) : bool :=
  match config !! prop_name p with
  | None => prop_required p
  | Some v => negb (has_type (prop_type p) v)
  end.

Definition config_errors (schema : list Property) (config : gmap string pyval)
  : list string :=
  prop_name <$> List.filter (violates config) schema.

(** What the SDK does with the configuration when the tap starts. *)
Definition validate_config (config : gmap string pyval) : result unit :=
  match config_errors config_jsonschema config with
  | [] => Ok tt
  | missing :: _ => Raise (ConfigValidationError missing)
  end.

(** ** Several callers on one tap object *)

(** The callers' remaining programs and the world they share. A schedule
    names, effect by effect, the caller that runs next. *)
Definition sched_step {A} (env : Env) (st : list (Prog A) * World) (i : nat)
  : list (Prog A) * World :=
  match st.1 !! i with
  | Some p => match step env p st.2 with
              | Some (p', w') => (<[i := p']> st.1, w')
              | None => st
              end
  | None => st
  end.

Definition run_schedule {A} (env : Env) (sched : list nat)
  (st : list (Prog A) * World) : list (Prog A) * World :=
  fold_left (sched_step env) sched st.

(** The value a caller has returned, if it has. *)
Definition returned {A} (p : Prog A) : option A :=
  match p with
  | Ret a => Some a
  | _ => None
  end.

(** The program a caller is left with once its call has ended. *)
Definition finished {A} (r : result A) : Prog A :=
  match r with
  | Ok a => Ret a
  | Raise e => Throw e
  end.

(** ** Statement vocabulary *)

Definition token_endpoint : string := "https://api.hubapi.com/oauth/v1/token".

(** [self] is an authenticator as the constructor builds it. *)
Definition constructed (self : OAuth2Authenticator) : Prop :=
  exists env w0 w, exec env (__init__ (_tap_config self)) w0 = (Ok self, w).

(** The configuration carries the four OAuth fields. *)
Definition configured (self : OAuth2Authenticator) (cid cs ru rt : pyval)
  : Prop :=
  _tap_config self !! "client_id" = Some cid /\
  _tap_config self !! "client_secret" = Some cs /\
  _tap_config self !! "redirect_uri" = Some ru /\
  _tap_config self !! "refresh_token" = Some rt.

(** The form fields of a refresh request. *)
Definition form_fields (cid cs ru rt : pyval) : gmap string pyval :=
  <["client_id" := cid]>
    (<["client_secret" := cs]>
       (<["redirect_uri" := ru]>
          (<["refresh_token" := rt]>
             (<["grant_type" := PStr "refresh_token"]> ∅)))).

(** The credential attributes of the tap object. *)
Definition credential (w : World) : option pyval * option pyval :=
  (tap w !! "access_token", tap w !! "expires_in").

(** A field is absent when it is unset or [None]. *)
Definition absent (o : option pyval) : bool :=
  match o with
  | None | Some PNone => true
  | Some _ => false
  end.

(** Both fields present or both absent. *)
Definition credential_invariant (w : World) : Prop :=
  absent (tap w !! "access_token") = absent (tap w !! "expires_in").

(** [raise_for_status] lets the status through. *)
Definition passes (r : Response) : Prop :=
  status_code r < 400 \/ 600 <= status_code r.

(** The world once a refresh has read the request time and sent its
    request. *)
Definition requested (env : Env) (body : gmap string pyval) (w : World)
  : World :=
  sent token_endpoint body (tick (now_at env (ticks (trace w))) w).

(** The world once [raise_for_status] has let the response through. *)
Definition accepted (env : Env) (body : gmap string pyval) (w : World)
  : World :=
  logged "OAuth authorization attempt was successful." (requested env body w).

(** The validity rule, presence being Python truthiness: the token is
    present, the expiry is present, and at least 60 seconds remain. *)
Definition credential_valid (now : Z) (a e : pyval) : bool :=
  py_truthy a && py_truthy e &&
  match py_int e with
  | Some x => 60 <=? x - now
  | None => false
  end.

(** The expiry is a timestamp or [None]. *)
Definition expiry_typed (e : pyval) : Prop :=
  e = PNone \/ exists x, e = PInt x.

(** The header dict of a call that finds or has made the token current. *)
Definition bearer (env : Env) (self : OAuth2Authenticator) (tok : pyval)
  : gmap string string :=
  <["Authorization" := "Bearer " +:+ py_str env tok]> (_auth_headers self).

(** [n] calls of [auth_headers], one after the other. *)
Fixpoint calls (env : Env) (self : OAuth2Authenticator) (n : nat) (w : World)
  : list (result (gmap string string)) * World :=
  match n with
  | O => ([], w)
  | S n' =>
      let '(r, w1) := exec env (auth_headers env self) w in
      let '(rs, w2) := calls env self n' w1 in
      (r :: rs, w2)
  end.

(** The failures [update_access_token] answers without touching the
    credential, each with the exception it raises. *)
Inductive refresh_fails : outcome -> exn -> Prop :=
| fails_network :
    refresh_fails NetworkError ConnectionError
| fails_status r j :
    400 <= status_code r < 600 ->
    json_body r = Some j ->
    refresh_fails (Replied r)
      (RuntimeError j (HTTPError (status_code r) (reason r) token_endpoint))
| fails_no_token r d :
    passes r ->
    json_body r = Some (PDict d) ->
    d !! "access_token" = None ->
    refresh_fails (Replied r) (KeyError "access_token").


(** ** Fixtures *)

Definition config0 : gmap string pyval :=
  <["client_id" := PStr "app-id"]>
    (<["client_secret" := PStr "app-secret"]>
       (<["redirect_uri" := PStr "https://localhost/callback"]>
          (<["refresh_token" := PStr "refresh-0"]>
             (<["properties" := PList []]> ∅)))).

Definition self0 : OAuth2Authenticator := mkAuth config0 token_endpoint ∅.

Definition body0 : gmap string pyval :=
  form_fields (PStr "app-id") (PStr "app-secret")
    (PStr "https://localhost/callback") (PStr "refresh-0").

(** A tap object on which an authenticator has just been constructed. *)
Definition blank : World :=
  mkWorld (<["expires_in" := PNone]> (<["access_token" := PNone]> ∅)) [].

(** A tap object holding the given credential. *)
Definition holding (tok : pyval) (expiry : pyval) : World :=
  mkWorld (<["expires_in" := expiry]> (<["access_token" := tok]> ∅)) [].

(** A 200 response whose JSON body is the given object. *)
Definition reply_ok (fields : gmap string pyval) : outcome :=
  Replied (mkResponse 200 "OK" "" (Some (PDict fields))).

Definition token_json (tok : string) (lifetime : Z) : gmap string pyval :=
  <["access_token" := PStr tok]> (<["expires_in" := PInt lifetime]> ∅).

(** An environment whose clock stands still and whose provider always
    answers the same. *)
Definition still (now : Z) (o : outcome) : Env :=
  mkEnv (fun _ => now) (fun _ _ _ => o) (fun _ => "").

(** A configuration file without [redirect_uri], and the authenticator
    constructed from it. *)
Definition config_no_redirect : gmap string pyval :=
  delete "redirect_uri" config0.

Definition self_no_redirect : OAuth2Authenticator :=
  mkAuth config_no_redirect token_endpoint ∅.

(** A 502 answer of a gateway, whose body is an HTML page. *)
Definition bad_gateway : outcome :=
  Replied (mkResponse 502 "Bad Gateway" "<html>502 Bad Gateway</html>" None).

(** A provider that hands out a new token for every request. *)
Definition rotating : Env :=
  mkEnv (fun _ => 1000)
        (fun k _ _ => reply_ok (token_json (match k with
                                            | O => "first"
                                            | S _ => "second"
                                            end) 1800))
        (fun _ => "").

(** Two callers: each runs its validity check (two effects) before either
    goes on, then each runs the remaining seven effects of its call. *)
Definition both_check_first : list nat :=
  [0; 0; 1; 1; 0; 0; 0; 0; 0; 0; 0; 1; 1; 1; 1; 1; 1; 1]%nat.

(** ** Running programs: equations *)

Lemma exec_bind {A B} env (c : Prog A) (f : A -> Prog B) w :
  exec env (bind c f) w =
  match exec env c w with
  | (Ok a, w') => exec env (f a) w'
  | (Raise e, w') => (Raise e, w')
  end.
Proof.
  revert w; induction c as [a|e|k IH|n k IH|n v k IH|u d k IH|m k IH];
    intros w; cbn [bind exec]; auto.
Qed.

Lemma exec_try_except {A} env (c : Prog A) (h : exn -> Prog A) w :
  exec env (try_except c h) w =
  match exec env c w with
  | (Ok a, w') => (Ok a, w')
  | (Raise e, w') => exec env (h e) w'
  end.
Proof.
  revert w; induction c as [a|e|k IH|n k IH|n v k IH|u d k IH|m k IH];
    intros w; cbn [try_except exec]; auto.
Qed.

(** Running to completion is running one effect and then the rest. *)
Lemma step_exec {A} env (p p' : Prog A) w w' :
  step env p w = Some (p', w') -> exec env p w = exec env p' w'.
Proof.
  destruct p; cbn [step exec]; intros H; inversion H; subst; reflexivity.
Qed.

Ltac py_unfold :=
  unfold __init__, auth_headers, update_access_token, is_token_valid,
    oauth_request_payload, oauth_request_body, config_item, auth_endpoint,
    requests_post, raise_for_status, response_json, py_getitem, py_add,
    py_sub, utcnow_timestamp, getattr, setattr, hasattr, logger_info in *.

Ltac py_eval :=
  cbn [exec bind try_except tick store sent logged tap trace ticks posts
       negb py_int fst snd] in *.

Lemma constructed_fields self :
  constructed self ->
  _auth_endpoint self = token_endpoint /\ _auth_headers self = ∅.
Proof.
  intros (env & w0 & w & H). py_unfold. py_eval.
  repeat (match type of H with
          | context [if ?b then _ else _] => destruct b
          end; py_eval);
    injection H as Hs Hw; rewrite <- Hs; split; reflexivity.
Qed.


(** ** The request a refresh sends *)

Lemma auth_endpoint_constructed self :
  constructed self -> auth_endpoint self = Ret token_endpoint.
Proof.
  intros H. destruct (constructed_fields self H) as [Hep _].
  unfold auth_endpoint. rewrite Hep. reflexivity.
Qed.

Lemma oauth_request_body_configured self cid cs ru rt :
  configured self cid cs ru rt ->
  oauth_request_body self = Ret (form_fields cid cs ru rt).
Proof.
  intros (H1 & H2 & H3 & H4).
  unfold oauth_request_body, config_item.
  rewrite H1, H2, H3, H4. reflexivity.
Qed.

(** The first configuration key that is missing stops the refresh before
    anything is sent. *)
Lemma oauth_request_body_missing_redirect_uri self cid cs :
  _tap_config self !! "client_id" = Some cid ->
  _tap_config self !! "client_secret" = Some cs ->
  _tap_config self !! "redirect_uri" = None ->
  oauth_request_body self = Throw (KeyError "redirect_uri").
Proof.
  intros H1 H2 H3. unfold oauth_request_body, config_item.
  rewrite H1, H2, H3. reflexivity.
Qed.

(** ** [is_token_valid] *)

Lemma is_token_valid_exec env w a e :
  tap w !! "access_token" = Some a ->
  tap w !! "expires_in" = Some e ->
  let now := now_at env (ticks (trace w)) in
  exec env is_token_valid w =
  (if negb (py_truthy a) then Ok false
   else if negb (py_truthy e) then Ok false
   else match py_int e with
        | Some x => Ok (negb (x - now <? 60))
        | None => Raise TypeError
        end,
   tick now w).
Proof.
  intros Ha He now. py_unfold. py_eval. rewrite Ha. py_eval.
  destruct (py_truthy a); py_eval; [|reflexivity].
  rewrite He. py_eval.
  destruct (py_truthy e); py_eval; [|reflexivity].
  rewrite He. py_eval.
  destruct e; reflexivity.
Qed.

(** ** [update_access_token], outcome by outcome *)

Section Refresh.
Context (env : Env) (self : OAuth2Authenticator) (cid cs ru rt : pyval).
Hypothesis Hself : constructed self.
Hypothesis Hcfg : configured self cid cs ru rt.

Let body := form_fields cid cs ru rt.

Ltac refresh_prefix :=
  unfold update_access_token, oauth_request_payload;
  rewrite (oauth_request_body_configured _ _ _ _ _ Hcfg);
  rewrite (auth_endpoint_constructed _ Hself);
  unfold utcnow_timestamp, requests_post; py_eval.

Lemma update_network_error w :
  post_at env (posts (trace w)) token_endpoint body = NetworkError ->
  exec env (update_access_token self) w =
  (Raise ConnectionError, requested env body w).
Proof.
  intros Ho. refresh_prefix. fold body. rewrite Ho. reflexivity.
Qed.

Lemma update_http_error w r :
  post_at env (posts (trace w)) token_endpoint body = Replied r ->
  400 <= status_code r < 600 ->
  exec env (update_access_token self) w =
  (match json_body r with
   | Some j =>
       Raise (RuntimeError j
                (HTTPError (status_code r) (reason r) token_endpoint))
   | None => Raise JSONDecodeError
   end, requested env body w).
Proof.
  intros Ho Hs. refresh_prefix. fold body. rewrite Ho. py_eval.
  unfold raise_for_status.
  replace ((400 <=? status_code r) && (status_code r <? 600))%bool
    with true by (symmetry; apply andb_true_iff; split; lia).
  py_eval. unfold response_json. destruct (json_body r); reflexivity.
Qed.

Lemma update_passes w r :
  post_at env (posts (trace w)) token_endpoint body = Replied r ->
  passes r ->
  exec env (update_access_token self) w =
  match json_body r with
  | None => (Raise JSONDecodeError, accepted env body w)
  | Some (PDict d) =>
      match d !! "access_token" with
      | None => (Raise (KeyError "access_token"), accepted env body w)
      | Some tok =>
          match d !! "expires_in" with
          | None =>
              (Raise (KeyError "expires_in"),
               store "access_token" tok (accepted env body w))
          | Some lifetime =>
              match py_int lifetime with
              | None =>
                  (Raise TypeError, store "access_token" tok (accepted env body w))
              | Some E =>
                  (Ok tt,
                   logged "Generated new access token"
                     (store "expires_in"
                        (PInt (now_at env (ticks (trace w)) + E))
                        (store "access_token" tok (accepted env body w))))
              end
          end
      end
  | Some _ => (Raise TypeError, accepted env body w)
  end.
Proof.
  intros Ho Hs. refresh_prefix. fold body. rewrite Ho. py_eval.
  unfold raise_for_status.
  replace ((400 <=? status_code r) && (status_code r <? 600))%bool
    with false by (symmetry; apply andb_false_iff; unfold passes in Hs; lia).
  py_unfold. py_eval.
  destruct (json_body r) as [j|]; py_eval; [|reflexivity].
  destruct j; py_eval; try reflexivity.
  destruct (d !! "access_token") as [tok|]; py_eval; [|reflexivity].
  destruct (d !! "expires_in") as [lifetime|]; py_eval; [|reflexivity].
  destruct (py_int lifetime); reflexivity.
Qed.
End Refresh.

(** ** [auth_headers] *)

(** The header construction that ends every call. *)
Lemma header_exec env self w tok :
  tap w !! "access_token" = Some tok ->
  exec env (access_token <- getattr "access_token";;
            Ret (<["Authorization" := "Bearer " +:+ py_str env access_token]>
                   (_auth_headers self))) w =
  (Ok (bearer env self tok), w).
Proof. intros H. py_unfold. py_eval. rewrite H. reflexivity. Qed.

(** A call is the validity check, then a refresh when the check fails, then
    the header. *)
Lemma auth_headers_exec env self w :
  exec env (auth_headers env self) w =
  match exec env is_token_valid w with
  | (Ok true, w1) =>
      exec env (access_token <- getattr "access_token";;
                Ret (<["Authorization" :=
                         "Bearer " +:+ py_str env access_token]>
                       (_auth_headers self))) w1
  | (Ok false, w1) =>
      exec env (update_access_token self;;;
                access_token <- getattr "access_token";;
                Ret (<["Authorization" :=
                         "Bearer " +:+ py_str env access_token]>
                       (_auth_headers self))) w1
  | (Raise ex, w1) => (Raise ex, w1)
  end.
Proof.
  unfold auth_headers. rewrite exec_bind.
  destruct (exec env is_token_valid w) as [[[|]|ex] w1]; reflexivity.
Qed.

Lemma is_token_valid_rule env w a e :
  tap w !! "access_token" = Some a ->
  tap w !! "expires_in" = Some e ->
  expiry_typed e ->
  let now := now_at env (ticks (trace w)) in
  exec env is_token_valid w = (Ok (credential_valid now a e), tick now w).
Proof.
  intros Ha He Ht now. rewrite (is_token_valid_exec env w a e Ha He).
  fold now. unfold credential_valid.
  destruct (py_truthy a); cbn [negb andb]; [|reflexivity].
  destruct Ht as [->|[x ->]]; [reflexivity|].
  destruct (py_truthy (PInt x)); cbn [negb andb py_int]; [|reflexivity].
  f_equal. f_equal.
  destruct (Z.ltb_spec (x - now) 60), (Z.leb_spec 60 (x - now));
    try reflexivity; lia.
Qed.

(** Whatever a refresh does, with a complete configuration it sends one
    request, after reading the clock once. *)
Lemma update_trace env self cid cs ru rt w :
  constructed self ->
  configured self cid cs ru rt ->
  exists evs,
    trace (exec env (update_access_token self) w).2 =
      (evs ++ EvPost token_endpoint (form_fields cid cs ru rt)
           :: EvClock (now_at env (ticks (trace w))) :: trace w)%list /\
    posts evs = 0%nat /\ ticks evs = 0%nat.
Proof.
  intros Hs Hc.
  destruct (post_at env (posts (trace w)) token_endpoint
              (form_fields cid cs ru rt)) as [|r] eqn:Ho.
  - rewrite (update_network_error env self cid cs ru rt Hs Hc w Ho).
    exists nil. auto.
  - destruct (decide (400 <= status_code r < 600)) as [Hst|Hst].
    + rewrite (update_http_error env self cid cs ru rt Hs Hc w r Ho Hst).
      exists nil. auto.
    + assert (Hp : passes r) by (unfold passes; lia).
      rewrite (update_passes env self cid cs ru rt Hs Hc w r Ho Hp).
      repeat case_match;
        solve [ eexists (cons _ nil); repeat split; reflexivity
              | eexists (cons _ (cons _ nil)); repeat split; reflexivity ].
Qed.

Lemma posts_app evs tr : posts (evs ++ tr)%list = (posts evs + posts tr)%nat.
Proof.
  induction evs as [|[]]; cbn [app posts]; auto. rewrite IHevs. reflexivity.
Qed.

(** The refresh in front of the header does not change what was sent. *)
Lemma refresh_then_header_world env self w :
  (exec env (update_access_token self;;;
             access_token <- getattr "access_token";;
             Ret (<["Authorization" :=
                      "Bearer " +:+ py_str env access_token]>
                    (_auth_headers self))) w).2 =
  (exec env (update_access_token self) w).2.
Proof.
  rewrite exec_bind.
  destruct (exec env (update_access_token self) w) as [[[]|ex] w']; [|done].
  py_unfold. py_eval. destruct (tap w' !! "access_token"); reflexivity.
Qed.

(** A call that returns hands out the bearer header of the token the tap
    object holds at that moment. *)
Lemma auth_headers_returns_bearer env self w h w' :
  exec env (auth_headers env self) w = (Ok h, w') ->
  exists tok, tap w' !! "access_token" = Some tok /\ h = bearer env self tok.
Proof.
  rewrite auth_headers_exec.
  destruct (exec env is_token_valid w) as [[[|]|ex] w1]; [| |discriminate].
  - py_unfold. py_eval.
    destruct (tap w1 !! "access_token") as [tok|] eqn:Ht; [|discriminate].
    py_eval. intros [= <- <-]. exists tok. auto.
  - rewrite exec_bind.
    destruct (exec env (update_access_token self) w1) as [[[]|ex] w2];
      [|discriminate].
    py_unfold. py_eval.
    destruct (tap w2 !! "access_token") as [tok|] eqn:Ht; [|discriminate].
    py_eval. intros [= <- <-]. exists tok. auto.
Qed.

(** The validity rule spelled out: the token is truthy, the expiry is a
    non-zero integer, and at least 60 seconds remain. *)
Lemma credential_valid_true_iff now a e :
  expiry_typed e ->
  credential_valid now a e = true <->
  py_truthy a = true /\ exists x, e = PInt x /\ x <> 0 /\ 60 <= x - now.
Proof.
  unfold credential_valid. intros [->|[x ->]]; cbn [py_truthy py_int].
  - rewrite andb_false_r. split; [discriminate|].
    intros (_ & x & Hx & _). discriminate.
  - rewrite !andb_true_iff, negb_true_iff, Z.eqb_neq, Z.leb_le. split.
    + intros [[Ha Hx] Hl]. split; [exact Ha|]. exists x. auto.
    + intros (Ha & y & [= <-] & Hy & Hl). auto.
Qed.

(** C1. One call of [auth_headers] performs exactly one refresh when the
    credential is not valid (token absent, expiry absent, or fewer than 60
    seconds left) and none when it is valid; a call that returns binds
    [Authorization] to ["Bearer <access_token>"] for the token then stored.
    Presence is truthiness: the credential is valid exactly when the token
    is truthy, the expiry is a non-zero integer and at least 60 seconds
    remain. The refresh count is both the number of runs of
    [update_access_token] and the number of POSTs. *)
Theorem auth_headers_refreshes_iff_invalid env self cid cs ru rt w a e :
  constructed self ->
  configured self cid cs ru rt ->
  tap w !! "access_token" = Some a ->
  tap w !! "expires_in" = Some e ->
  expiry_typed e ->
  let now := now_at env (ticks (trace w)) in
  let run := exec env (auth_headers env self) w in
  (if credential_valid now a e
   then run = (Ok (bearer env self a), tick now w) /\
        posts (trace run.2) = posts (trace w)
   else run = exec env (update_access_token self;;;
                        access_token <- getattr "access_token";;
                        Ret (<["Authorization" :=
                                 "Bearer " +:+ py_str env access_token]>
                               (_auth_headers self))) (tick now w) /\
        posts (trace run.2) = S (posts (trace w))) /\
  (credential_valid now a e = true <->
   py_truthy a = true /\ exists x, e = PInt x /\ x <> 0 /\ 60 <= x - now) /\
  (forall h, run.1 = Ok h ->
     exists tok, tap run.2 !! "access_token" = Some tok /\
                 h !! "Authorization" = Some ("Bearer " +:+ py_str env tok)).
Proof.
  intros Hs Hc Ha He Ht now run. split; [|split].
  2: { apply credential_valid_true_iff. exact Ht. }
  - subst run. rewrite auth_headers_exec.
    rewrite (is_token_valid_rule env w a e Ha He Ht). fold now.
    destruct (credential_valid now a e).
    + rewrite (header_exec env self (tick now w) a Ha). auto.
    + split; [reflexivity|].
      rewrite refresh_then_header_world.
      destruct (update_trace env self cid cs ru rt (tick now w) Hs Hc)
        as (evs & -> & Hp & _).
      rewrite posts_app, Hp. reflexivity.
  - intros h Hh. destruct run as [r w'] eqn:Hrun. cbn [fst snd] in *.
    subst r. destruct (auth_headers_returns_bearer env self w h w' Hrun)
      as (tok & Htok & ->).
    exists tok. split; [exact Htok|]. unfold bearer.
    apply lookup_insert_eq.
Qed.

Lemma self0_constructed : constructed self0.
Proof.
  exists (still 0 NetworkError), (mkWorld ∅ []), blank.
  vm_compute. reflexivity.
Qed.

Lemma self0_configured :
  configured self0 (PStr "app-id") (PStr "app-secret")
    (PStr "https://localhost/callback") (PStr "refresh-0").
Proof. repeat split; vm_compute; reflexivity. Qed.

Lemma auth_headers_refreshes_iff_invalid_witness :
  let env := still 1000 (reply_ok (token_json "abc123" 1800)) in
  let run := exec env (auth_headers env self0) (holding (PStr "xyz") (PInt 1030)) in
  posts (trace run.2) = 1%nat /\
  forall h, run.1 = Ok h ->
    exists tok, tap run.2 !! "access_token" = Some tok /\
                h !! "Authorization" = Some ("Bearer " +:+ py_str env tok).
Proof.
  intros env run.
  destruct (auth_headers_refreshes_iff_invalid env self0 _ _ _ _
              (holding (PStr "xyz") (PInt 1030)) (PStr "xyz") (PInt 1030)
              self0_constructed self0_configured)
    as [[_ Hposts] [_ Hhdr]].
  - vm_compute; reflexivity.
  - vm_compute; reflexivity.
  - right. exists 1030. reflexivity.
  - split; [exact Hposts | exact Hhdr].
Defined.

(** C3. After a successful refresh whose response carries the integer
    [expires_in = E], the stored expiry is [T + E] and the stored token is
    the response's, [T] being the one clock reading of the refresh, taken
    before the request is sent: in the trace the reading lies under the
    POST, and no later reading exists. *)
Theorem update_access_token_stores_request_time_plus_lifetime
    env self cid cs ru rt w r d tok E :
  constructed self ->
  configured self cid cs ru rt ->
  post_at env (posts (trace w)) token_endpoint (form_fields cid cs ru rt)
    = Replied r ->
  200 <= status_code r < 300 ->
  json_body r = Some (PDict d) ->
  d !! "access_token" = Some tok ->
  d !! "expires_in" = Some (PInt E) ->
  let T := now_at env (ticks (trace w)) in
  exists w',
    exec env (update_access_token self) w = (Ok tt, w') /\
    tap w' !! "expires_in" = Some (PInt (T + E)) /\
    tap w' !! "access_token" = Some tok /\
    trace w' =
      EvLog "Generated new access token"
      :: EvLog "OAuth authorization attempt was successful."
      :: EvPost token_endpoint (form_fields cid cs ru rt)
      :: EvClock T :: trace w.
Proof.
  intros Hs Hc Ho Hst Hj Htok HE T.
  assert (Hp : passes r) by (unfold passes; lia).
  rewrite (update_passes env self cid cs ru rt Hs Hc w r Ho Hp).
  rewrite Hj, Htok, HE. cbn [py_int]. eexists. split; [reflexivity|].
  cbn [tap logged store]. split; [apply lookup_insert_eq|].
  split; [|reflexivity].
  rewrite lookup_insert_ne by discriminate. apply lookup_insert_eq.
Qed.

Lemma update_access_token_stores_request_time_plus_lifetime_witness :
  exists w',
    exec (still 1000 (reply_ok (token_json "abc123" 1800)))
      (update_access_token self0) blank = (Ok tt, w') /\
    tap w' !! "expires_in" = Some (PInt (1000 + 1800)) /\
    tap w' !! "access_token" = Some (PStr "abc123") /\
    trace w' =
      EvLog "Generated new access token"
      :: EvLog "OAuth authorization attempt was successful."
      :: EvPost token_endpoint body0
      :: EvClock 1000 :: trace blank.
Proof.
  apply (update_access_token_stores_request_time_plus_lifetime
           (still 1000 (reply_ok (token_json "abc123" 1800))) self0
           (PStr "app-id") (PStr "app-secret")
           (PStr "https://localhost/callback") (PStr "refresh-0") blank
           (mkResponse 200 "OK" "" (Some (PDict (token_json "abc123" 1800))))
           (token_json "abc123" 1800) (PStr "abc123") 1800).
  - exact self0_constructed.
  - exact self0_configured.
  - reflexivity.
  - cbn; lia.
  - reflexivity.
  - vm_compute; reflexivity.
  - vm_compute; reflexivity.
Defined.

(** C7. Every refresh of a constructed authenticator issues exactly one
    POST, to the fixed token endpoint, and its form body holds exactly the
    five fields: [client_id], [client_secret], [redirect_uri] and
    [refresh_token] as the configuration has them, and [grant_type] with
    the value ["refresh_token"]. *)
Theorem update_access_token_posts_once env self cid cs ru rt w :
  constructed self ->
  configured self cid cs ru rt ->
  let w' := (exec env (update_access_token self) w).2 in
  let body := form_fields cid cs ru rt in
  (exists evs,
     trace w' =
       (evs ++ EvPost "https://api.hubapi.com/oauth/v1/token" body
            :: EvClock (now_at env (ticks (trace w))) :: trace w)%list /\
     posts evs = 0%nat) /\
  posts (trace w') = S (posts (trace w)) /\
  dom body =
    ({["client_id"; "client_secret"; "redirect_uri"; "refresh_token";
       "grant_type"]} : gset string) /\
  body !! "client_id" = Some cid /\
  body !! "client_secret" = Some cs /\
  body !! "redirect_uri" = Some ru /\
  body !! "refresh_token" = Some rt /\
  body !! "grant_type" = Some (PStr "refresh_token").
Proof.
  intros Hs Hc w' body.
  destruct (update_trace env self cid cs ru rt w Hs Hc) as (evs & Htr & Hp & _).
  split; [exists evs; split; assumption|].
  split; [subst w'; rewrite Htr, posts_app, Hp; reflexivity|].
  subst body. unfold form_fields.
  split; [rewrite !dom_insert_L, dom_empty_L; set_solver|].
  repeat split; simplify_map_eq; reflexivity.
Qed.

Lemma update_access_token_posts_once_witness :
  let w' := (exec (still 1000 NetworkError) (update_access_token self0) blank).2 in
  (exists evs,
     trace w' =
       (evs ++ EvPost "https://api.hubapi.com/oauth/v1/token" body0
            :: EvClock 1000 :: trace blank)%list /\
     posts evs = 0%nat) /\
  posts (trace w') = 1%nat /\
  dom body0 =
    ({["client_id"; "client_secret"; "redirect_uri"; "refresh_token";
       "grant_type"]} : gset string).
Proof.
  intros w'.
  destruct (update_access_token_posts_once (still 1000 NetworkError) self0
              (PStr "app-id") (PStr "app-secret")
              (PStr "https://localhost/callback") (PStr "refresh-0") blank
              self0_constructed self0_configured)
    as (Htrace & Hposts & Hdom & _).
  split; [exact Htrace|]. split; [exact Hposts | exact Hdom].
Defined.

(** C10. Presence is truthiness: with the empty string as token, or with 0
    as stored expiry, [is_token_valid] answers false whatever the clock
    says, as it does when the field is [None], and [auth_headers] goes on
    to refresh. *)
Theorem falsy_credential_is_invalid env self w a e :
  tap w !! "access_token" = Some a ->
  tap w !! "expires_in" = Some e ->
  a = PStr "" \/ e = PInt 0 ->
  let now := now_at env (ticks (trace w)) in
  exec env is_token_valid w = (Ok false, tick now w) /\
  exec env is_token_valid (store "access_token" PNone w) =
    (Ok false, tick now (store "access_token" PNone w)) /\
  exec env is_token_valid (store "expires_in" PNone w) =
    (Ok false, tick now (store "expires_in" PNone w)) /\
  exec env (auth_headers env self) w =
    exec env (update_access_token self;;;
              access_token <- getattr "access_token";;
              Ret (<["Authorization" :=
                       "Bearer " +:+ py_str env access_token]>
                     (_auth_headers self))) (tick now w).
Proof.
  intros Ha He Hfalsy now.
  assert (Hv : exec env is_token_valid w = (Ok false, tick now w)).
  { rewrite (is_token_valid_exec env w a e Ha He). fold now.
    destruct Hfalsy as [->| ->]; [reflexivity|].
    destruct (py_truthy a); reflexivity. }
  split; [exact Hv|]. split; [|split].
  - rewrite (is_token_valid_exec env _ PNone e); [reflexivity| |].
    + cbn [tap store]. apply lookup_insert_eq.
    + cbn [tap store]. rewrite lookup_insert_ne by discriminate. exact He.
  - rewrite (is_token_valid_exec env _ a PNone).
    + cbn [trace store]. fold now. destruct (py_truthy a); reflexivity.
    + cbn [tap store]. rewrite lookup_insert_ne by discriminate. exact Ha.
    + cbn [tap store]. apply lookup_insert_eq.
  - rewrite auth_headers_exec, Hv. reflexivity.
Qed.

Lemma falsy_credential_is_invalid_witness :
  let env := still (-100) NetworkError in
  exec env is_token_valid (holding (PStr "xyz") (PInt 0)) =
    (Ok false, tick (-100) (holding (PStr "xyz") (PInt 0))) /\
  exec env is_token_valid (holding (PStr "") (PInt 5000)) =
    (Ok false, tick (-100) (holding (PStr "") (PInt 5000))).
Proof.
  intros env. split.
  - apply (falsy_credential_is_invalid env self0
             (holding (PStr "xyz") (PInt 0)) (PStr "xyz") (PInt 0)).
    + vm_compute; reflexivity.
    + vm_compute; reflexivity.
    + right; reflexivity.
  - apply (falsy_credential_is_invalid env self0
             (holding (PStr "") (PInt 5000)) (PStr "") (PInt 5000)).
    + vm_compute; reflexivity.
    + vm_compute; reflexivity.
    + left; reflexivity.
Defined.

(** ** Failing refreshes *)

(** A successful refresh, read backwards. *)
Lemma update_ok_inv env self cid cs ru rt w w' :
  constructed self ->
  configured self cid cs ru rt ->
  exec env (update_access_token self) w = (Ok tt, w') ->
  exists r d tok lifetime E,
    post_at env (posts (trace w)) token_endpoint (form_fields cid cs ru rt)
      = Replied r /\
    passes r /\
    json_body r = Some (PDict d) /\
    d !! "access_token" = Some tok /\
    d !! "expires_in" = Some lifetime /\
    py_int lifetime = Some E /\
    w' = logged "Generated new access token"
           (store "expires_in" (PInt (now_at env (ticks (trace w)) + E))
              (store "access_token" tok
                 (accepted env (form_fields cid cs ru rt) w))).
Proof.
  intros Hs Hc.
  destruct (post_at env (posts (trace w)) token_endpoint
              (form_fields cid cs ru rt)) as [|r] eqn:Ho.
  { rewrite (update_network_error env self cid cs ru rt Hs Hc w Ho).
    discriminate. }
  destruct (decide (400 <= status_code r < 600)) as [Hst|Hst].
  { rewrite (update_http_error env self cid cs ru rt Hs Hc w r Ho Hst).
    destruct (json_body r); discriminate. }
  assert (Hp : passes r) by (unfold passes; lia).
  rewrite (update_passes env self cid cs ru rt Hs Hc w r Ho Hp).
  destruct (json_body r) as [[ |b|z|s|l|d]|] eqn:Hj; try discriminate.
  destruct (d !! "access_token") as [tok|] eqn:Htok; [|discriminate].
  destruct (d !! "expires_in") as [lifetime|] eqn:Hl; [|discriminate].
  destruct (py_int lifetime) as [E|] eqn:HE; [|discriminate].
  intros [= <-]. exists r, d, tok, lifetime, E. repeat split; auto.
Qed.

(** C2 (amended). For every prior credential, a refresh fails and leaves
    [access_token] and [expires_in] as they were when no response arrives
    (the transport's ConnectionError), when the status is 4xx or 5xx and
    the body is JSON (RuntimeError carrying the body and the HTTP error),
    and when a response that passes the status check is a JSON object
    without [access_token] (KeyError). *)
Theorem update_access_token_failure_keeps_credential
    env self cid cs ru rt w o ex :
  constructed self ->
  configured self cid cs ru rt ->
  post_at env (posts (trace w)) token_endpoint (form_fields cid cs ru rt) = o ->
  refresh_fails o ex ->
  exists w',
    exec env (update_access_token self) w = (Raise ex, w') /\
    tap w' = tap w /\
    credential w' = credential w.
Proof.
  intros Hs Hc Ho Hf.
  destruct Hf as [|r j Hst Hj|r d Hp Hj Htok].
  - rewrite (update_network_error env self cid cs ru rt Hs Hc w Ho).
    eexists; split; [reflexivity|]. split; reflexivity.
  - rewrite (update_http_error env self cid cs ru rt Hs Hc w r Ho Hst), Hj.
    eexists; split; [reflexivity|]. split; reflexivity.
  - rewrite (update_passes env self cid cs ru rt Hs Hc w r Ho Hp), Hj, Htok.
    eexists; split; [reflexivity|]. split; reflexivity.
Qed.

Lemma update_access_token_failure_keeps_credential_witness :
  exists w',
    exec (still 1000
            (Replied (mkResponse 401 "Unauthorized" "{}" (Some (PDict ∅)))))
      (update_access_token self0) (holding (PStr "xyz") (PInt 1030)) =
    (Raise (RuntimeError (PDict ∅)
              (HTTPError 401 "Unauthorized" token_endpoint)), w') /\
    tap w' = tap (holding (PStr "xyz") (PInt 1030)) /\
    credential w' = credential (holding (PStr "xyz") (PInt 1030)).
Proof.
  apply (update_access_token_failure_keeps_credential
           (still 1000
              (Replied (mkResponse 401 "Unauthorized" "{}" (Some (PDict ∅)))))
           self0 (PStr "app-id") (PStr "app-secret")
           (PStr "https://localhost/callback") (PStr "refresh-0")
           (holding (PStr "xyz") (PInt 1030))
           (Replied (mkResponse 401 "Unauthorized" "{}" (Some (PDict ∅))))).
  - exact self0_constructed.
  - exact self0_configured.
  - reflexivity.
  - apply (fails_status (mkResponse 401 "Unauthorized" "{}" (Some (PDict ∅)))
             (PDict ∅)); [cbn; lia | reflexivity].
Defined.

(** C2, as stated, fails: a 200 response whose JSON object lacks
    [access_token] makes the refresh raise KeyError, not the RuntimeError
    of a failed login. *)
Lemma update_access_token_missing_token_raises_key_error :
  let env := still 1000 (reply_ok {["expires_in" := PInt 1800]}) in
  let run := exec env (update_access_token self0) blank in
  post_at env (posts (trace blank)) token_endpoint body0 =
    reply_ok {["expires_in" := PInt 1800]} /\
  ({["expires_in" := PInt 1800]} : gmap string pyval) !! "access_token"
    = None /\
  run.1 = Raise (KeyError "access_token") /\
  forall response cause, run.1 <> Raise (RuntimeError response cause).
Proof.
  intros env run.
  assert (Hrun : run.1 = Raise (KeyError "access_token"))
    by (vm_compute; reflexivity).
  split; [reflexivity|]. split; [vm_compute; reflexivity|].
  split; [exact Hrun|]. intros response cause. rewrite Hrun. discriminate.
Qed.

(** ** The lifetime of the token a call hands out *)

Lemma is_token_valid_world env w :
  (exec env is_token_valid w).2 = tick (now_at env (ticks (trace w))) w.
Proof.
  py_unfold. py_eval.
  destruct (tap w !! "access_token") as [a|]; py_eval; [|reflexivity].
  destruct (py_truthy a); py_eval; [|reflexivity].
  destruct (tap w !! "expires_in") as [e|] eqn:He; py_eval; [|reflexivity].
  destruct (py_truthy e); py_eval; [|reflexivity].
  rewrite He. py_eval. destruct (py_int e); reflexivity.
Qed.

Lemma is_token_valid_true_inv env w w1 :
  exec env is_token_valid w = (Ok true, w1) ->
  exists a e x,
    tap w !! "access_token" = Some a /\
    tap w !! "expires_in" = Some e /\
    py_int e = Some x /\
    60 <= x - now_at env (ticks (trace w)).
Proof.
  py_unfold. py_eval.
  destruct (tap w !! "access_token") as [a|]; py_eval; [|discriminate].
  destruct (py_truthy a); py_eval; [|discriminate].
  destruct (tap w !! "expires_in") as [e|] eqn:He; py_eval; [|discriminate].
  destruct (py_truthy e); py_eval; [|discriminate].
  rewrite He. py_eval.
  destruct (py_int e) as [x|] eqn:Hx; py_eval; [|discriminate].
  intros [= Hlt _]. exists a, e, x. repeat split; auto.
  apply negb_true_iff, Z.ltb_ge in Hlt. exact Hlt.
Qed.

(** C5 (amended). When [auth_headers] returns without having refreshed,
    the token of the returned header has at least 60 seconds left at the
    validity check. When it has refreshed, the stored expiry is the request
    time plus the [expires_in] of the response, whatever that is: the call
    does not check the new token, so 60 seconds are left at the check only
    if request time plus [expires_in] minus check time is at least 60. *)
Theorem auth_headers_remaining_lifetime env self cid cs ru rt w h w' :
  constructed self ->
  configured self cid cs ru rt ->
  exec env (auth_headers env self) w = (Ok h, w') ->
  let now := now_at env (ticks (trace w)) in
  exists tok e x,
    tap w' !! "access_token" = Some tok /\
    h = bearer env self tok /\
    tap w' !! "expires_in" = Some e /\
    py_int e = Some x /\
    ((posts (trace w') = posts (trace w) /\ 60 <= x - now) \/
     (posts (trace w') = S (posts (trace w)) /\
      exists r d lifetime E,
        post_at env (posts (trace w)) token_endpoint
          (form_fields cid cs ru rt) = Replied r /\
        json_body r = Some (PDict d) /\
        d !! "expires_in" = Some lifetime /\
        py_int lifetime = Some E /\
        x = now_at env (S (ticks (trace w))) + E)).
Proof.
  intros Hs Hc Hrun now. subst now.
  destruct (auth_headers_returns_bearer env self w h w' Hrun)
    as (tok & Htok & Hh).
  exists tok. revert Hrun. rewrite auth_headers_exec.
  pose proof (is_token_valid_world env w) as Hw1.
  destruct (exec env is_token_valid w) as [[[|]|ex] w1] eqn:Hv;
    cbn [snd] in Hw1; subst w1; [| |discriminate].
  - destruct (is_token_valid_true_inv env w _ Hv) as (a & e & x & Ha & He & Hx & Hlt).
    rewrite (header_exec env self (tick _ w) a Ha).
    intros Heq; injection Heq as Hh' Hw'; subst w'.
    exists e, x. repeat split; auto.
  - rewrite exec_bind.
    destruct (exec env (update_access_token self) (tick _ w))
      as [[[]|ex] w2] eqn:Hu; [|discriminate].
    destruct (update_ok_inv env self cid cs ru rt _ _ Hs Hc Hu)
      as (r & d & tok' & lifetime & E & Ho & Hp & Hj & Hd & Hl & HE & ->).
    rewrite (header_exec env self _ tok')
      by (cbn [tap logged store]; rewrite lookup_insert_ne by discriminate;
          apply lookup_insert_eq).
    intros Heq; injection Heq as Hh' Hw'; subst w'.
    exists (PInt (now_at env (S (ticks (trace w))) + E)),
           (now_at env (S (ticks (trace w))) + E).
    split; [exact Htok|]. split; [exact Hh|].
    split; [cbn [tap logged store]; apply lookup_insert_eq|].
    split; [reflexivity|]. right. split; [reflexivity|].
    exists r, d, lifetime, E. repeat split; auto.
Qed.

Lemma auth_headers_remaining_lifetime_witness :
  let env := still 1000 (reply_ok (token_json "abc123" 1800)) in
  let w' := (exec env (auth_headers env self0) blank).2 in
  exists tok e x,
    tap w' !! "access_token" = Some tok /\
    {["Authorization" := "Bearer abc123"]} = bearer env self0 tok /\
    tap w' !! "expires_in" = Some e /\
    py_int e = Some x /\
    ((posts (trace w') = posts (trace blank) /\ 60 <= x - 1000) \/
     (posts (trace w') = S (posts (trace blank)) /\
      exists r d lifetime E,
        reply_ok (token_json "abc123" 1800) = Replied r /\
        json_body r = Some (PDict d) /\
        d !! "expires_in" = Some lifetime /\
        py_int lifetime = Some E /\
        x = 1000 + E)).
Proof.
  intros env w'.
  apply (auth_headers_remaining_lifetime env self0
           (PStr "app-id") (PStr "app-secret")
           (PStr "https://localhost/callback") (PStr "refresh-0")
           blank {["Authorization" := "Bearer abc123"]} w'
           self0_constructed self0_configured).
  vm_compute. reflexivity.
Defined.

(** C5, as stated, fails: from a blank tap object, with the clock at 1000
    and a provider answering [expires_in = 30], the call returns the bearer
    header of a token that has 30 seconds left at the validity check. *)
Lemma auth_headers_returns_short_lived_token :
  let env := still 1000 (reply_ok (token_json "abc123" 30)) in
  let run := exec env (auth_headers env self0) blank in
  run.1 = Ok {["Authorization" := "Bearer abc123"]} /\
  tap run.2 !! "expires_in" = Some (PInt 1030) /\
  now_at env (ticks (trace blank)) = 1000 /\
  ~ 60 <= 1030 - 1000.
Proof.
  intros env run. split; [vm_compute; reflexivity|].
  split; [vm_compute; reflexivity|]. split; [reflexivity|lia].
Qed.

(** ** Where the code departs from its documentation *)

(** The constructor establishes the invariant on a tap object that carries
    neither attribute. *)
Lemma init_establishes_invariant env config w0 :
  tap w0 !! "access_token" = None ->
  tap w0 !! "expires_in" = None ->
  let w := (exec env (__init__ config) w0).2 in
  tap w !! "access_token" = Some PNone /\
  tap w !! "expires_in" = Some PNone /\
  credential_invariant w.
Proof.
  intros Ha He. py_unfold. py_eval. rewrite Ha.
  rewrite bool_decide_eq_false_2 by (intros [? ?]; discriminate). py_eval.
  rewrite lookup_insert_ne by discriminate. rewrite He.
  rewrite bool_decide_eq_false_2 by (intros [? ?]; discriminate). py_eval.
  unfold credential_invariant. cbn [tap store].
  rewrite lookup_insert_eq, lookup_insert_ne by discriminate.
  rewrite lookup_insert_eq. auto.
Qed.

(** C4. The invariant holds on a freshly constructed authenticator, and the
    refresh breaks it: answered with a 200 response whose JSON object has
    [access_token] but no [expires_in], [update_access_token] stores the
    token, then raises KeyError, and leaves a token without an expiry. *)
Theorem update_access_token_stores_token_without_expiry :
  let env := still 1000 (reply_ok {["access_token" := PStr "abc123"]}) in
  exec env (__init__ config0) (mkWorld ∅ []) = (Ok self0, blank) /\
  credential_invariant blank /\
  let run := exec env (update_access_token self0) blank in
  run.1 = Raise (KeyError "expires_in") /\
  tap run.2 !! "access_token" = Some (PStr "abc123") /\
  tap run.2 !! "expires_in" = Some PNone /\
  ~ credential_invariant run.2.
Proof.
  intros env. split; [vm_compute; reflexivity|].
  split; [vm_compute; reflexivity|]. intros run.
  assert (Ha : tap run.2 !! "access_token" = Some (PStr "abc123"))
    by (vm_compute; reflexivity).
  assert (He : tap run.2 !! "expires_in" = Some PNone)
    by (vm_compute; reflexivity).
  split; [vm_compute; reflexivity|]. split; [exact Ha|]. split; [exact He|].
  unfold credential_invariant. rewrite Ha, He. discriminate.
Qed.

(** C6. Answered with a 502 whose body is not JSON, the refresh does not
    raise the RuntimeError of a failed login: building its message calls
    [Response.json()], which raises JSONDecodeError from inside the
    handler, and neither status nor body reaches the caller. *)
Theorem update_access_token_non_json_error_body :
  let env := still 1000 bad_gateway in
  let run := exec env (update_access_token self0) blank in
  post_at env (posts (trace blank)) token_endpoint body0 = bad_gateway /\
  run.1 = Raise JSONDecodeError /\
  forall response cause, run.1 <> Raise (RuntimeError response cause).
Proof.
  intros env run.
  assert (Hrun : run.1 = Raise JSONDecodeError) by (vm_compute; reflexivity).
  split; [reflexivity|]. split; [exact Hrun|].
  intros response cause. rewrite Hrun. discriminate.
Qed.

(** With a JSON error body the same status does raise the RuntimeError,
    carrying the body and the HTTP error. *)
Lemma update_access_token_json_error_body :
  let env :=
    still 1000 (Replied (mkResponse 502 "Bad Gateway" "{}" (Some (PDict ∅)))) in
  (exec env (update_access_token self0) blank).1 =
  Raise (RuntimeError (PDict ∅) (HTTPError 502 "Bad Gateway" token_endpoint)).
Proof. vm_compute. reflexivity. Qed.

(** Whatever else the configuration holds, a refresh without
    [redirect_uri] stops at the request body: the clock is read and nothing
    is sent. *)
Lemma update_access_token_missing_redirect_uri env self cid cs w :
  _tap_config self !! "client_id" = Some cid ->
  _tap_config self !! "client_secret" = Some cs ->
  _tap_config self !! "redirect_uri" = None ->
  exec env (update_access_token self) w =
  (Raise (KeyError "redirect_uri"), tick (now_at env (ticks (trace w))) w).
Proof.
  intros H1 H2 H3. unfold update_access_token, oauth_request_payload.
  rewrite (oauth_request_body_missing_redirect_uri self cid cs H1 H2 H3).
  reflexivity.
Qed.

(** The schema makes exactly these keys required. *)
Lemma required_keys :
  prop_name <$> List.filter prop_required config_jsonschema =
  ["client_id"; "client_secret"; "refresh_token"; "properties"].
Proof. reflexivity. Qed.

(** C8. A configuration without [redirect_uri] passes the validation at
    startup, the authenticator is constructed from it, and the first
    refresh raises KeyError before anything is sent; without [client_id]
    the same configuration is rejected at startup. *)
Theorem config_without_redirect_uri_is_accepted :
  let env := still 1000 NetworkError in
  config_no_redirect !! "redirect_uri" = None /\
  validate_config config_no_redirect = Ok tt /\
  exec env (__init__ config_no_redirect) (mkWorld ∅ [])
    = (Ok self_no_redirect, blank) /\
  exec env (update_access_token self_no_redirect) blank
    = (Raise (KeyError "redirect_uri"), tick 1000 blank) /\
  posts (trace (tick 1000 blank)) = 0%nat /\
  validate_config (delete "client_id" config0)
    = Raise (ConfigValidationError "client_id").
Proof.
  intros env. repeat split; vm_compute; reflexivity.
Qed.

(** ** Calls one after the other, and calls that overlap *)

Lemma auth_headers_valid env self w a e :
  tap w !! "access_token" = Some a ->
  tap w !! "expires_in" = Some e ->
  expiry_typed e ->
  credential_valid (now_at env (ticks (trace w))) a e = true ->
  exec env (auth_headers env self) w =
  (Ok (bearer env self a), tick (now_at env (ticks (trace w))) w).
Proof.
  intros Ha He Ht Hv. rewrite auth_headers_exec.
  rewrite (is_token_valid_rule env w a e Ha He Ht), Hv.
  apply header_exec. exact Ha.
Qed.

Lemma auth_headers_invalid_posts env self cid cs ru rt w a e :
  constructed self ->
  configured self cid cs ru rt ->
  tap w !! "access_token" = Some a ->
  tap w !! "expires_in" = Some e ->
  expiry_typed e ->
  credential_valid (now_at env (ticks (trace w))) a e = false ->
  posts (trace (exec env (auth_headers env self) w).2) = S (posts (trace w)).
Proof.
  intros Hs Hc Ha He Ht Hv. rewrite auth_headers_exec.
  rewrite (is_token_valid_rule env w a e Ha He Ht), Hv.
  rewrite refresh_then_header_world.
  destruct (update_trace env self cid cs ru rt
              (tick (now_at env (ticks (trace w))) w) Hs Hc)
    as (evs & -> & Hp & _).
  rewrite posts_app, Hp. reflexivity.
Qed.

(** While the credential stays valid, calls send nothing and all return the
    same header. *)
Lemma calls_while_valid env self tok e n :
  expiry_typed e ->
  forall w,
    tap w !! "access_token" = Some tok ->
    tap w !! "expires_in" = Some e ->
    (forall k, (ticks (trace w) <= k < ticks (trace w) + n)%nat ->
               credential_valid (now_at env k) tok e = true) ->
    exists wn,
      calls env self n w = (replicate n (Ok (bearer env self tok)), wn) /\
      posts (trace wn) = posts (trace w) /\
      tap wn = tap w.
Proof.
  intros Ht. induction n as [|n IH]; intros w Ha He Hv.
  - exists w. auto.
  - cbn [calls].
    rewrite (auth_headers_valid env self w tok e Ha He Ht)
      by (apply Hv; lia).
    destruct (IH (tick (now_at env (ticks (trace w))) w) Ha He)
      as (wn & Hcalls & Hposts & Htap).
    { intros k Hk. apply Hv. cbn [trace tick ticks] in Hk. lia. }
    rewrite Hcalls. exists wn. auto.
Qed.

(** A caller scheduled alone, for long enough, does what [exec] says. *)
Lemma run_alone {A} env (p : Prog A) w :
  exists n,
    run_schedule env (replicate n 0%nat) ([p], w) =
    ([finished (exec env p w).1], (exec env p w).2).
Proof.
  revert w. induction p as [a|e|k IH|n k IH|n v k IH|u d k IH|m k IH];
    intros w; cbn [exec].
  - exists 0%nat. reflexivity.
  - exists 0%nat. reflexivity.
  - destruct (IH (now_at env (ticks (trace w)))
                 (tick (now_at env (ticks (trace w))) w)) as [n Hn].
    exists (S n). exact Hn.
  - destruct (IH (tap w !! n) w) as [j Hj]. exists (S j). exact Hj.
  - destruct (IH (store n v w)) as [j Hj]. exists (S j). exact Hj.
  - destruct (IH (post_at env (posts (trace w)) u d) (sent u d w)) as [j Hj].
    exists (S j). exact Hj.
  - destruct (IH (logged m w)) as [j Hj]. exists (S j). exact Hj.
Qed.

(** C9 (amended). Calls made one after the other while the credential is
    invalid send at most one request: the first call refreshes, and as long
    as the refreshed credential is valid at the later checks, every later
    call sends nothing and returns the header of the refreshed token. *)
Theorem calls_in_sequence_refresh_once
    env self cid cs ru rt w a e n h w1 tok x :
  constructed self ->
  configured self cid cs ru rt ->
  tap w !! "access_token" = Some a ->
  tap w !! "expires_in" = Some e ->
  expiry_typed e ->
  credential_valid (now_at env (ticks (trace w))) a e = false ->
  exec env (auth_headers env self) w = (Ok h, w1) ->
  tap w1 !! "access_token" = Some tok ->
  tap w1 !! "expires_in" = Some (PInt x) ->
  (forall k, (ticks (trace w1) <= k < ticks (trace w1) + n)%nat ->
             credential_valid (now_at env k) tok (PInt x) = true) ->
  exists wn,
    calls env self (S n) w =
      (replicate (S n) (Ok (bearer env self tok)), wn) /\
    posts (trace wn) = S (posts (trace w)).
Proof.
  intros Hs Hc Ha He Ht Hinv Hrun Htok Hx Hlater.
  pose proof (auth_headers_invalid_posts env self cid cs ru rt w a e
                Hs Hc Ha He Ht Hinv) as Hposts.
  destruct (auth_headers_returns_bearer env self w h w1 Hrun)
    as (tok' & Htok' & ->).
  rewrite Htok in Htok'. injection Htok' as <-.
  assert (Htx : expiry_typed (PInt x)) by (right; exists x; reflexivity).
  destruct (calls_while_valid env self tok (PInt x) n Htx w1 Htok Hx Hlater)
    as (wn & Hcalls & Hpn & _).
  exists wn. cbn [calls]. rewrite Hrun, Hcalls. split; [reflexivity|].
  rewrite Hpn. rewrite Hrun in Hposts. exact Hposts.
Qed.

Lemma calls_in_sequence_refresh_once_witness :
  let env := still 1000 (reply_ok (token_json "abc123" 1800)) in
  exists wn,
    calls env self0 3 blank =
      (replicate 3 (Ok (bearer env self0 (PStr "abc123"))), wn) /\
    posts (trace wn) = S (posts (trace blank)).
Proof.
  intros env.
  apply (calls_in_sequence_refresh_once env self0
           (PStr "app-id") (PStr "app-secret")
           (PStr "https://localhost/callback") (PStr "refresh-0")
           blank PNone PNone 2 (bearer env self0 (PStr "abc123"))
           (exec env (auth_headers env self0) blank).2 (PStr "abc123") 2800).
  - exact self0_constructed.
  - exact self0_configured.
  - vm_compute; reflexivity.
  - vm_compute; reflexivity.
  - left; reflexivity.
  - vm_compute; reflexivity.
  - vm_compute; reflexivity.
  - vm_compute; reflexivity.
  - vm_compute; reflexivity.
  - intros k _. vm_compute; reflexivity.
Defined.

(** C9, as stated, fails: nothing serialises the callers. When two calls on
    a blank tap object both run their validity check before either
    refreshes, each sends its own request; with a provider that rotates
    tokens they return different tokens. *)
Lemma overlapping_calls_post_twice :
  let st := run_schedule rotating both_check_first
              ([auth_headers rotating self0; auth_headers rotating self0],
               blank) in
  credential_valid 1000 PNone PNone = false /\
  returned <$> st.1 =
    [Some {["Authorization" := "Bearer first"]};
     Some {["Authorization" := "Bearer second"]}] /\
  posts (trace st.2) = 2%nat /\
  ~ (posts (trace st.2) <= 1)%nat.
Proof.
  intros st.
  assert (Hp : posts (trace st.2) = 2%nat) by (vm_compute; reflexivity).
  split; [reflexivity|]. split; [vm_compute; reflexivity|].
  split; [exact Hp|]. rewrite Hp. lia.
Qed.

(** ** The end-to-end scenarios of the specification *)

(** No prior token, the provider answers [abc123] for 1800 seconds at time
    1000: the header carries [abc123] and the expiry is 2800. *)
Example scenario_first_call :
  let env := still 1000 (reply_ok (token_json "abc123" 1800)) in
  let run := exec env (auth_headers env self0) blank in
  run.1 = Ok {["Authorization" := "Bearer abc123"]} /\
  tap run.2 !! "expires_in" = Some (PInt 2800) /\
  posts (trace run.2) = 1%nat.
Proof. repeat split; vm_compute; reflexivity. Qed.

(** A token good for another hour: no request, the header carries it. *)
Example scenario_valid_token :
  let env := still 1000 NetworkError in
  let run := exec env (auth_headers env self0)
               (holding (PStr "xyz") (PInt (1000 + 3600))) in
  run.1 = Ok {["Authorization" := "Bearer xyz"]} /\
  posts (trace run.2) = 0%nat.
Proof. repeat split; vm_compute; reflexivity. Qed.

(** A token inside the 60-second buffer: exactly one request. *)
Example scenario_expiring_token :
  let env := still 1000 (reply_ok (token_json "abc123" 1800)) in
  let run := exec env (auth_headers env self0)
               (holding (PStr "xyz") (PInt (1000 + 30))) in
  run.1 = Ok {["Authorization" := "Bearer abc123"]} /\
  posts (trace run.2) = 1%nat.
Proof. repeat split; vm_compute; reflexivity. Qed.

(** ** More of the authenticator and of the schema *)

Ltac py_cases :=
  py_unfold; py_eval; repeat (case_match; py_eval).

Lemma hasattr_set (o : option pyval) v :
  o = Some v -> bool_decide (is_Some o) = true.
Proof. intros ->. apply bool_decide_eq_true_2. eauto. Qed.

Lemma hasattr_unset (o : option pyval) :
  o = None -> bool_decide (is_Some o) = false.
Proof. intros ->. apply bool_decide_eq_false_2. intros [? ?]; discriminate. Qed.

(** X1. The constructor always succeeds and performs no effect but
    attribute writes: every attribute the tap object carries keeps its
    value, the credential attributes it lacks are created as [None], and
    nothing else is created. *)
Theorem init_keeps_existing_attributes env config w0 :
  let run := exec env (__init__ config) w0 in
  run.1 = Ok (mkAuth config "https://api.hubapi.com/oauth/v1/token" ∅) /\
  trace run.2 = trace w0 /\
  (forall name v, tap w0 !! name = Some v -> tap run.2 !! name = Some v) /\
  (forall name, tap w0 !! name = None ->
     tap run.2 !! name =
     if decide (name = "access_token" \/ name = "expires_in")
     then Some PNone else None).
Proof.
  py_unfold. py_eval.
  destruct (tap w0 !! "access_token") as [a|] eqn:Ha;
    [rewrite (hasattr_set _ a eq_refl)|rewrite (hasattr_unset _ eq_refl)];
    py_eval;
    rewrite ?lookup_insert_ne by discriminate;
    (destruct (tap w0 !! "expires_in") as [e|] eqn:He;
     [rewrite (hasattr_set _ e eq_refl)|rewrite (hasattr_unset _ eq_refl)]);
    py_eval.
  all: split; [reflexivity|]; split; [reflexivity|]; split.
  all: try (intros name v Hn;
            repeat (rewrite lookup_insert_ne by congruence); exact Hn).
  all: intros name Hn; case_decide as Hd.
  all: try (destruct Hd as [-> | ->]; try congruence;
            rewrite ?lookup_insert_eq; try reflexivity;
            rewrite lookup_insert_ne by discriminate;
            rewrite ?lookup_insert_eq; reflexivity).
  all: try (repeat (rewrite lookup_insert_ne by (intros <-; apply Hd; auto));
            exact Hn).
Qed.

(** On a tap object that carries both attributes the constructor changes
    nothing. *)
Lemma init_on_constructed_tap_changes_nothing env config w a e :
  tap w !! "access_token" = Some a ->
  tap w !! "expires_in" = Some e ->
  exec env (__init__ config) w =
  (Ok (mkAuth config "https://api.hubapi.com/oauth/v1/token" ∅), w).
Proof.
  intros Ha He. py_unfold. py_eval.
  rewrite (hasattr_set _ a Ha). py_eval.
  rewrite (hasattr_set _ e He). py_eval. reflexivity.
Qed.

Lemma ticks_app evs tr : ticks (evs ++ tr)%list = (ticks evs + ticks tr)%nat.
Proof.
  induction evs as [|[]]; cbn [app ticks]; auto. rewrite IHevs. reflexivity.
Qed.

(** Whatever the configuration and the provider, a refresh reads the clock
    first, sends at most one request, writes no attribute but the two of
    the credential, and writes nothing before it has sent. *)
Lemma update_effects env self w :
  let w' := (exec env (update_access_token self) w).2 in
  exists evs,
    trace w' =
      (evs ++ EvClock (now_at env (ticks (trace w))) :: trace w)%list /\
    ticks evs = 0%nat /\ (posts evs <= 1)%nat /\
    (posts evs = 0%nat -> tap w' = tap w) /\
    (forall name, name <> "access_token" -> name <> "expires_in" ->
                  tap w' !! name = tap w !! name).
Proof.
  py_cases.
  all: first
    [ exists nil; split; [reflexivity|]
    | eexists (cons _ nil); split; [reflexivity|]
    | eexists (cons _ (cons _ nil)); split; [reflexivity|]
    | eexists (cons _ (cons _ (cons _ nil))); split; [reflexivity|] ].
  all: split; [reflexivity|]. 
  all: split; [cbn; lia|].
  all: split; [cbn; try discriminate; reflexivity|].
  all: intros name Hn1 Hn2; cbn [tap];
    repeat (rewrite lookup_insert_ne by congruence); reflexivity.
Qed.

(** X2. Whatever the configuration, the provider's answer and the
    outcome, one run of [update_access_token] reads the clock exactly once
    and sends at most one request; it writes no attribute but
    [access_token] and [expires_in], and a run that sends nothing leaves
    the tap object as it was. *)
Theorem update_access_token_never_retries env self w :
  let w' := (exec env (update_access_token self) w).2 in
  ticks (trace w') = S (ticks (trace w)) /\
  (posts (trace w') <= S (posts (trace w)))%nat /\
  (posts (trace w') = posts (trace w) -> tap w' = tap w) /\
  (forall name, name <> "access_token" -> name <> "expires_in" ->
                tap w' !! name = tap w !! name).
Proof.
  intros w'. destruct (update_effects env self w)
    as (evs & Htr & Ht & Hp & Hsame & Hframe).
  fold w' in Htr, Hsame, Hframe. rewrite Htr, ticks_app, posts_app, Ht.
  cbn [ticks posts]. split; [lia|]. split; [lia|]. split; [|exact Hframe].
  intros H. apply Hsame. lia.
Qed.

Lemma header_world env self w :
  (exec env (access_token <- getattr "access_token";;
             Ret (<["Authorization" :=
                      "Bearer " +:+ py_str env access_token]>
                    (_auth_headers self))) w).2 = w.
Proof. py_unfold. py_eval. destruct (tap w !! "access_token"); reflexivity. Qed.

(** X3. One call of [auth_headers] reads the clock once or twice and sends
    at most one request, whatever happens; it writes no attribute but the
    two of the credential, and a call that sends nothing leaves the tap
    object as it was. *)
Theorem auth_headers_never_retries env self w :
  let w' := (exec env (auth_headers env self) w).2 in
  (S (ticks (trace w)) <= ticks (trace w') <= S (S (ticks (trace w))))%nat /\
  (posts (trace w') <= S (posts (trace w)))%nat /\
  (posts (trace w') = posts (trace w) -> tap w' = tap w) /\
  (forall name, name <> "access_token" -> name <> "expires_in" ->
                tap w' !! name = tap w !! name).
Proof.
  intros w'. subst w'. rewrite auth_headers_exec.
  pose proof (is_token_valid_world env w) as Hw1.
  destruct (exec env is_token_valid w) as [[[|]|ex] w1];
    cbn [snd] in Hw1; subst w1.
  - rewrite header_world. cbn [trace tick ticks posts tap]. repeat split; auto.
  - rewrite refresh_then_header_world.
    destruct (update_effects env self (tick (now_at env (ticks (trace w))) w))
      as (evs & Htr & Ht & Hp & Hsame & Hframe).
    rewrite Htr, ticks_app, posts_app, Ht. cbn [ticks posts trace tick].
    split; [lia|]. split; [lia|]. split; [|exact Hframe].
    intros H. apply Hsame. lia.
  - cbn [snd trace tick ticks posts tap]. repeat split; auto.
Qed.

(** X4. [oauth_request_body] either returns the five form fields of a
    configuration that has the four keys, or raises KeyError for the first
    key, in the order [client_id], [client_secret], [redirect_uri],
    [refresh_token], that the configuration lacks; it raises nothing
    else. *)
Theorem oauth_request_body_first_missing_key self :
  let keys := ["client_id"; "client_secret"; "redirect_uri"; "refresh_token"] in
  match oauth_request_body self with
  | Ret body =>
      exists cid cs ru rt,
        configured self cid cs ru rt /\ body = form_fields cid cs ru rt
  | Throw (KeyError k) =>
      exists i, keys !! i = Some k /\
                _tap_config self !! k = None /\
                forall j k', (j < i)%nat -> keys !! j = Some k' ->
                             is_Some (_tap_config self !! k')
  | _ => False
  end.
Proof.
  intros keys. unfold oauth_request_body, config_item.
  destruct (_tap_config self !! "client_id") as [cid|] eqn:H1; cbn [bind].
  2: { exists 0%nat. repeat split; auto. intros j k' Hj. lia. }
  destruct (_tap_config self !! "client_secret") as [cs|] eqn:H2; cbn [bind].
  2: { exists 1%nat. repeat split; auto.
       intros [|j] k' Hj Hk; [|lia]. injection Hk as <-. eauto. }
  destruct (_tap_config self !! "redirect_uri") as [ru|] eqn:H3; cbn [bind].
  2: { exists 2%nat. repeat split; auto.
       intros [|[|j]] k' Hj Hk; [| |lia]; injection Hk as <-; eauto. }
  destruct (_tap_config self !! "refresh_token") as [rt|] eqn:H4; cbn [bind].
  2: { exists 3%nat. repeat split; auto.
       intros [|[|[|j]]] k' Hj Hk; [| | |lia]; injection Hk as <-; eauto. }
  exists cid, cs, ru, rt. repeat split; auto.
Qed.


(** X6. With a complete configuration and an empty endpoint, a refresh
    raises ValueError after reading the clock and before sending
    anything. *)
Theorem update_access_token_unset_endpoint env self cid cs ru rt w :
  configured self cid cs ru rt ->
  _auth_endpoint self = "" ->
  exec env (update_access_token self) w =
  (Raise (ValueError "Authorization endpoint not set."),
   tick (now_at env (ticks (trace w))) w).
Proof.
  intros Hc He. unfold update_access_token, oauth_request_payload.
  rewrite (oauth_request_body_configured self cid cs ru rt Hc).
  unfold auth_endpoint. rewrite He. reflexivity.
Qed.

Lemma update_access_token_unset_endpoint_witness :
  exec (still 1000 NetworkError) (update_access_token (mkAuth config0 "" ∅))
    blank =
  (Raise (ValueError "Authorization endpoint not set."), tick 1000 blank).
Proof.
  apply (update_access_token_unset_endpoint (still 1000 NetworkError)
           (mkAuth config0 "" ∅) (PStr "app-id") (PStr "app-secret")
           (PStr "https://localhost/callback") (PStr "refresh-0") blank).
  - repeat split; vm_compute; reflexivity.
  - reflexivity.
Defined.

(** X7. [is_token_valid] reads the clock once and changes nothing else,
    whatever the tap object holds. It fails only with AttributeError, for
    an attribute the tap object lacks, or with TypeError, for a truthy
    expiry that is not a number. *)
Theorem is_token_valid_reads_only env w :
  (exec env is_token_valid w).2 = tick (now_at env (ticks (trace w))) w /\
  match (exec env is_token_valid w).1 with
  | Ok _ => True
  | Raise (AttributeError name) => tap w !! name = None
  | Raise TypeError =>
      exists e, tap w !! "expires_in" = Some e /\
                py_truthy e = true /\ py_int e = None
  | Raise _ => False
  end.
Proof.
  split; [apply is_token_valid_world|].
  py_unfold. py_eval.
  destruct (tap w !! "access_token") as [a|] eqn:Ha; py_eval; [|exact Ha].
  destruct (py_truthy a); py_eval; [|exact I].
  destruct (tap w !! "expires_in") as [e|] eqn:He; py_eval; [|exact He].
  destruct (py_truthy e) eqn:Hte; py_eval; [|exact I].
  rewrite He. py_eval.
  destruct (py_int e) eqn:Hie; py_eval; [exact I|].
  exists e. auto.
Qed.

(** X8. A credential that [is_token_valid] accepts at one clock reading is
    accepted at every earlier reading. *)
Theorem is_token_valid_earlier_clock env1 env2 w :
  now_at env2 (ticks (trace w)) <= now_at env1 (ticks (trace w)) ->
  (exec env1 is_token_valid w).1 = Ok true ->
  (exec env2 is_token_valid w).1 = Ok true.
Proof.
  intros Hle H1.
  destruct (exec env1 is_token_valid w) as [r w1] eqn:Hrun. cbn [fst] in H1.
  subst r.
  destruct (is_token_valid_true_inv env1 w w1 Hrun)
    as (a & e & x & Ha & He & Hx & Hlt).
  rewrite (is_token_valid_exec env1 w a e Ha He) in Hrun.
  rewrite (is_token_valid_exec env2 w a e Ha He).
  destruct (py_truthy a); cbn [negb] in *; [|discriminate].
  destruct (py_truthy e); cbn [negb] in *; [|discriminate].
  rewrite Hx. cbn [fst]. f_equal.
  apply negb_true_iff, Z.ltb_ge. lia.
Qed.

Lemma is_token_valid_earlier_clock_witness :
  (exec (still 900 NetworkError) is_token_valid
     (holding (PStr "xyz") (PInt 1060))).1 = Ok true.
Proof.
  apply (is_token_valid_earlier_clock (still 1000 NetworkError)
           (still 900 NetworkError) (holding (PStr "xyz") (PInt 1060))).
  - cbn; lia.
  - vm_compute; reflexivity.
Defined.



(** X10. Only the statuses 400 to 599 make a refresh fail: a response with
    any other status, a 3xx included, whose JSON object has [access_token]
    and an integer or boolean [expires_in] is stored like a 200, a boolean
    counting as 0 or 1. *)
Theorem update_access_token_accepts_any_status_but_4xx_5xx
    env self cid cs ru rt w r d tok lifetime E :
  constructed self ->
  configured self cid cs ru rt ->
  post_at env (posts (trace w)) token_endpoint (form_fields cid cs ru rt)
    = Replied r ->
  status_code r < 400 \/ 600 <= status_code r ->
  json_body r = Some (PDict d) ->
  d !! "access_token" = Some tok ->
  d !! "expires_in" = Some lifetime ->
  py_int lifetime = Some E ->
  exists w',
    exec env (update_access_token self) w = (Ok tt, w') /\
    tap w' !! "access_token" = Some tok /\
    tap w' !! "expires_in" = Some (PInt (now_at env (ticks (trace w)) + E)).
Proof.
  intros Hs Hc Ho Hst Hj Htok Hl HE.
  rewrite (update_passes env self cid cs ru rt Hs Hc w r Ho Hst), Hj, Htok, Hl, HE.
  eexists. split; [reflexivity|]. cbn [tap logged store].
  split; [|apply lookup_insert_eq].
  rewrite lookup_insert_ne by discriminate. apply lookup_insert_eq.
Qed.

Lemma update_access_token_accepts_any_status_but_4xx_5xx_witness :
  let env := still 1000 (Replied (mkResponse 302 "Found" ""
                                   (Some (PDict (<["access_token" := PStr "abc123"]>
                                                   (<["expires_in" := PBool true]> ∅)))))) in
  exists w',
    exec env (update_access_token self0) blank = (Ok tt, w') /\
    tap w' !! "access_token" = Some (PStr "abc123") /\
    tap w' !! "expires_in" = Some (PInt (1000 + 1)).
Proof.
  intros env.
  apply (update_access_token_accepts_any_status_but_4xx_5xx env self0
           (PStr "app-id") (PStr "app-secret")
           (PStr "https://localhost/callback") (PStr "refresh-0") blank
           (mkResponse 302 "Found" ""
              (Some (PDict (<["access_token" := PStr "abc123"]>
                              (<["expires_in" := PBool true]> ∅)))))
           (<["access_token" := PStr "abc123"]>
              (<["expires_in" := PBool true]> ∅))
           (PStr "abc123") (PBool true) 1).
  - exact self0_constructed.
  - exact self0_configured.
  - reflexivity.
  - left; cbn; lia.
  - reflexivity.
  - vm_compute; reflexivity.
  - vm_compute; reflexivity.
  - reflexivity.
Defined.

(** X11. A refresh never reads the stored credential: from two tap objects
    with the same history of effects it ends in the same result with the
    same effects and, when it succeeds, leaves the same credential. *)
Theorem update_access_token_ignores_stored_credential env self w1 w2 :
  trace w1 = trace w2 ->
  let run1 := exec env (update_access_token self) w1 in
  let run2 := exec env (update_access_token self) w2 in
  run1.1 = run2.1 /\
  trace run1.2 = trace run2.2 /\
  (run1.1 = Ok tt -> credential run1.2 = credential run2.2).
Proof.
  destruct w1 as [t1 tr], w2 as [t2 tr2]. cbn [trace]. intros <-.
  py_cases; repeat split; try discriminate; intros _.
  unfold credential. cbn [tap store logged accepted requested sent tick].
  by simplify_map_eq.
Qed.

Lemma update_access_token_ignores_stored_credential_witness :
  let env := still 1000 (reply_ok (token_json "abc123" 1800)) in
  let run1 := exec env (update_access_token self0) blank in
  let run2 := exec env (update_access_token self0)
                (holding (PStr "xyz") (PInt 99999)) in
  run1.1 = run2.1 /\
  trace run1.2 = trace run2.2 /\
  (run1.1 = Ok tt -> credential run1.2 = credential run2.2).
Proof.
  intros env.
  apply (update_access_token_ignores_stored_credential env self0 blank
           (holding (PStr "xyz") (PInt 99999))).
  reflexivity.
Defined.

(** X12. A call of a constructed authenticator that returns hands out
    exactly one header, [Authorization], for the token the tap object then
    holds. *)
Theorem auth_headers_single_header env self w h w' :
  constructed self ->
  exec env (auth_headers env self) w = (Ok h, w') ->
  exists tok,
    tap w' !! "access_token" = Some tok /\
    h = {["Authorization" := "Bearer " +:+ py_str env tok]} /\
    dom h = ({["Authorization"]} : gset string).
Proof.
  intros Hs Hrun.
  destruct (constructed_fields self Hs) as [_ Hh].
  destruct (auth_headers_returns_bearer env self w h w' Hrun)
    as (tok & Htok & ->).
  exists tok. unfold bearer. rewrite Hh.
  split; [exact Htok|]. split; [reflexivity|].
  rewrite dom_insert_L, dom_empty_L. set_solver.
Qed.

Lemma auth_headers_single_header_witness :
  let env := still 1000 NetworkError in
  exists tok,
    tap (tick 1000 (holding (PStr "xyz") (PInt 4600))) !! "access_token"
      = Some tok /\
    ({["Authorization" := "Bearer xyz"]} : gmap string string) =
      {["Authorization" := "Bearer " +:+ py_str env tok]} /\
    dom ({["Authorization" := "Bearer xyz"]} : gmap string string) =
      ({["Authorization"]} : gset string).
Proof.
  intros env.
  apply (auth_headers_single_header env self0
           (holding (PStr "xyz") (PInt 4600))
           {["Authorization" := "Bearer xyz"]}
           (tick 1000 (holding (PStr "xyz") (PInt 4600)))
           self0_constructed).
  vm_compute. reflexivity.
Defined.

(** X13. When the credential is invalid and the refresh raises,
    [auth_headers] raises the same exception in the world the refresh left:
    no header is built from the stale token. *)
Theorem auth_headers_failed_refresh_returns_nothing env self w a e ex w2 :
  tap w !! "access_token" = Some a ->
  tap w !! "expires_in" = Some e ->
  expiry_typed e ->
  let now := now_at env (ticks (trace w)) in
  credential_valid now a e = false ->
  exec env (update_access_token self) (tick now w) = (Raise ex, w2) ->
  exec env (auth_headers env self) w = (Raise ex, w2).
Proof.
  intros Ha He Ht now Hv Hu. rewrite auth_headers_exec.
  rewrite (is_token_valid_rule env w a e Ha He Ht). fold now. rewrite Hv.
  rewrite exec_bind, Hu. reflexivity.
Qed.

Lemma auth_headers_failed_refresh_returns_nothing_witness :
  let env := still 1000 NetworkError in
  exec env (auth_headers env self0) (holding (PStr "xyz") (PInt 1030)) =
  (Raise ConnectionError,
   sent token_endpoint body0 (tick 1000 (tick 1000 (holding (PStr "xyz") (PInt 1030))))).
Proof.
  intros env.
  apply (auth_headers_failed_refresh_returns_nothing env self0
           (holding (PStr "xyz") (PInt 1030)) (PStr "xyz") (PInt 1030)).
  - vm_compute; reflexivity.
  - vm_compute; reflexivity.
  - right; exists 1030; reflexivity.
  - vm_compute; reflexivity.
  - vm_compute; reflexivity.
Defined.

(** X14. A second authenticator constructed on a tap object that holds a
    valid credential, with whatever configuration, hands out the stored
    token: the constructor does not reset it, nothing is sent, and the
    configuration is never read. *)
Theorem second_authenticator_reuses_token env config2 w tok e :
  tap w !! "access_token" = Some tok ->
  tap w !! "expires_in" = Some e ->
  expiry_typed e ->
  let now := now_at env (ticks (trace w)) in
  credential_valid now tok e = true ->
  exec env (self2 <- __init__ config2;; auth_headers env self2) w =
  (Ok {["Authorization" := "Bearer " +:+ py_str env tok]}, tick now w).
Proof.
  intros Ha He Ht now Hv. rewrite exec_bind.
  rewrite (init_on_constructed_tap_changes_nothing env config2 w tok e Ha He).
  rewrite (auth_headers_valid env _ w tok e Ha He Ht Hv). reflexivity.
Qed.

(** X15. A refresh answered with [access_token: null] and an integer
    [expires_in] succeeds: the call stores [None] as token and returns the
    header ["Bearer None"]. *)
Theorem auth_headers_hands_out_null_token
    env self cid cs ru rt w a e r d E :
  constructed self ->
  configured self cid cs ru rt ->
  tap w !! "access_token" = Some a ->
  tap w !! "expires_in" = Some e ->
  expiry_typed e ->
  credential_valid (now_at env (ticks (trace w))) a e = false ->
  post_at env (posts (trace w)) token_endpoint (form_fields cid cs ru rt)
    = Replied r ->
  passes r ->
  json_body r = Some (PDict d) ->
  d !! "access_token" = Some PNone ->
  d !! "expires_in" = Some (PInt E) ->
  let run := exec env (auth_headers env self) w in
  run.1 = Ok {["Authorization" := "Bearer None"]} /\
  tap run.2 !! "access_token" = Some PNone.
Proof.
  intros Hs Hc Ha He Ht Hv Ho Hp Hj Htok HE run. subst run.
  destruct (constructed_fields self Hs) as [_ Hh].
  rewrite auth_headers_exec.
  rewrite (is_token_valid_rule env w a e Ha He Ht), Hv.
  rewrite exec_bind.
  rewrite (update_passes env self cid cs ru rt Hs Hc
             (tick (now_at env (ticks (trace w))) w) r Ho Hp), Hj, Htok, HE.
  cbn [py_int].
  rewrite (header_exec env self _ PNone)
    by (cbn [tap logged store]; rewrite lookup_insert_ne by discriminate;
        apply lookup_insert_eq).
  unfold bearer. rewrite Hh. cbn [fst snd tap logged store py_str].
  split; [reflexivity|].
  rewrite lookup_insert_ne by discriminate. apply lookup_insert_eq.
Qed.

Lemma now_monotone env :
  (forall k, now_at env k <= now_at env (S k)) ->
  forall j k, (j <= k)%nat -> now_at env j <= now_at env k.
Proof.
  intros Hstep j k Hjk. induction Hjk as [|k Hjk IH]; [lia|].
  specialize (Hstep k). lia.
Qed.

(** X16. With a clock that never runs backwards and a provider whose
    tokens all live less than 60 seconds, every call refreshes: [n] calls
    in sequence, from a credential that is and stays invalid, all return
    and send [n] requests. *)
Theorem short_lifetimes_refresh_every_call env self cid cs ru rt :
  constructed self ->
  configured self cid cs ru rt ->
  (forall k, now_at env k <= now_at env (S k)) ->
  (forall k, exists r d tok E,
      post_at env k token_endpoint (form_fields cid cs ru rt) = Replied r /\
      passes r /\ json_body r = Some (PDict d) /\
      d !! "access_token" = Some tok /\
      d !! "expires_in" = Some (PInt E) /\ E < 60) ->
  forall n w a e,
    tap w !! "access_token" = Some a ->
    tap w !! "expires_in" = Some e ->
    expiry_typed e ->
    (forall k, (ticks (trace w) <= k)%nat ->
               credential_valid (now_at env k) a e = false) ->
    posts (trace (calls env self n w).2) = (posts (trace w) + n)%nat /\
    Forall (fun r => exists h, r = Ok h) (calls env self n w).1.
Proof.
  intros Hs Hc Hclock Hreply.
  induction n as [|n IH]; intros w a e Ha He Ht Hstale.
  { cbn [calls fst snd]. split; [lia|constructor]. }
  cbn [calls]. rewrite auth_headers_exec.
  rewrite (is_token_valid_rule env w a e Ha He Ht).
  rewrite (Hstale (ticks (trace w))) by lia.
  rewrite exec_bind.
  destruct (Hreply (posts (trace w)))
    as (r & d & tok & E & Ho & Hp & Hj & Htok & HE & Hshort).
  rewrite (update_passes env self cid cs ru rt Hs Hc
             (tick (now_at env (ticks (trace w))) w) r Ho Hp), Hj, Htok, HE.
  cbn [py_int].
  rewrite (header_exec env self _ tok)
    by (cbn [tap logged store]; rewrite lookup_insert_ne by discriminate;
        apply lookup_insert_eq).
  match goal with |- context [calls env self n ?w1] =>
    specialize (IH w1 tok
                  (PInt (now_at env (ticks (trace (tick (now_at env (ticks (trace w))) w))) + E)));
    destruct (calls env self n w1) as [rs w2] end.
  cbn [fst snd] in *.
  destruct IH as [IHp IHf].
  - cbn [tap logged store]. rewrite lookup_insert_ne by discriminate.
    apply lookup_insert_eq.
  - cbn [tap logged store]. apply lookup_insert_eq.
  - right. eexists. reflexivity.
  - intros k Hk. cbn [trace logged store accepted requested sent tick ticks] in *.
    unfold credential_valid. cbn [py_int].
    pose proof (now_monotone env Hclock (S (ticks (trace w))) k ltac:(lia)).
    replace (60 <=? _) with false; [apply andb_false_r|].
    symmetry. apply Z.leb_gt. lia.
  - split; [|constructor; eauto].
    rewrite IHp. cbn [trace logged store accepted requested sent tick posts].
    lia.
Qed.













Lemma second_authenticator_reuses_token_witness :
  let env := still 1000 NetworkError in
  exec env (self2 <- __init__ ∅;; auth_headers env self2)
    (holding (PStr "xyz") (PInt 4600)) =
  (Ok {["Authorization" := "Bearer xyz"]},
   tick 1000 (holding (PStr "xyz") (PInt 4600))).
Proof.
  intros env.
  apply (second_authenticator_reuses_token env ∅
           (holding (PStr "xyz") (PInt 4600)) (PStr "xyz") (PInt 4600)).
  - vm_compute; reflexivity.
  - vm_compute; reflexivity.
  - right; exists 4600; reflexivity.
  - vm_compute; reflexivity.
Defined.



Lemma auth_headers_hands_out_null_token_witness :
  let env := still 1000 (reply_ok (<["access_token" := PNone]>
                                     (<["expires_in" := PInt 1800]> ∅))) in
  let run := exec env (auth_headers env self0) blank in
  run.1 = Ok {["Authorization" := "Bearer None"]} /\
  tap run.2 !! "access_token" = Some PNone.
Proof.
  intros env.
  apply (auth_headers_hands_out_null_token env self0
           (PStr "app-id") (PStr "app-secret")
           (PStr "https://localhost/callback") (PStr "refresh-0")
           blank PNone PNone
           (mkResponse 200 "OK" ""
              (Some (PDict (<["access_token" := PNone]>
                              (<["expires_in" := PInt 1800]> ∅)))))
           (<["access_token" := PNone]> (<["expires_in" := PInt 1800]> ∅))
           1800).
  - exact self0_constructed.
  - exact self0_configured.
  - vm_compute; reflexivity.
  - vm_compute; reflexivity.
  - left; reflexivity.
  - reflexivity.
  - reflexivity.
  - left; cbn; lia.
  - reflexivity.
  - vm_compute; reflexivity.
  - vm_compute; reflexivity.
Defined.

Lemma short_lifetimes_refresh_every_call_witness :
  let env := still 1000 (reply_ok (token_json "abc123" 30)) in
  posts (trace (calls env self0 3 blank).2) = (posts (trace blank) + 3)%nat /\
  Forall (fun r => exists h, r = Ok h) (calls env self0 3 blank).1.
Proof.
  intros env.
  apply (short_lifetimes_refresh_every_call env self0
           (PStr "app-id") (PStr "app-secret")
           (PStr "https://localhost/callback") (PStr "refresh-0")
           self0_constructed self0_configured) with (a := PNone) (e := PNone).
  - intros k. cbn. lia.
  - intros k. eexists _, (token_json "abc123" 30), (PStr "abc123"), 30.
    split; [reflexivity|]. split; [left; cbn; lia|].
    split; [reflexivity|]. split; [vm_compute; reflexivity|].
    split; [vm_compute; reflexivity|lia].
  - vm_compute; reflexivity.
  - vm_compute; reflexivity.
  - left; reflexivity.
  - intros k _. reflexivity.
Defined.

(** X21. A successful refresh followed by the validity check: the new
    credential is valid exactly when the token is truthy, the stored expiry
    [T + E] is not 0, and at least 60 seconds remain at the check's clock
    reading. *)
Theorem refresh_then_validity_check
    env self cid cs ru rt w r d tok lifetime E :
  constructed self ->
  configured self cid cs ru rt ->
  post_at env (posts (trace w)) token_endpoint (form_fields cid cs ru rt)
    = Replied r ->
  passes r ->
  json_body r = Some (PDict d) ->
  d !! "access_token" = Some tok ->
  d !! "expires_in" = Some lifetime ->
  py_int lifetime = Some E ->
  let T := now_at env (ticks (trace w)) in
  let now' := now_at env (S (ticks (trace w))) in
  (exec env (update_access_token self;;; is_token_valid) w).1 =
  Ok (py_truthy tok && negb (T + E =? 0) && (60 <=? T + E - now')).
Proof.
  intros Hs Hc Ho Hp Hj Htok Hl HE T now'.
  rewrite exec_bind.
  rewrite (update_passes env self cid cs ru rt Hs Hc w r Ho Hp), Hj, Htok, Hl, HE.
  rewrite (is_token_valid_rule env _ tok (PInt (T + E))).
  - reflexivity.
  - cbn [tap logged store]. rewrite lookup_insert_ne by discriminate.
    apply lookup_insert_eq.
  - cbn [tap logged store]. apply lookup_insert_eq.
  - right. eexists. reflexivity.
Qed.

Lemma refresh_then_validity_check_witness :
  let env := still 1000 (reply_ok (token_json "abc123" 1800)) in
  (exec env (update_access_token self0;;; is_token_valid) blank).1 =
  Ok (py_truthy (PStr "abc123") && negb (1000 + 1800 =? 0)
      && (60 <=? 1000 + 1800 - 1000)).
Proof.
  intros env.
  apply (refresh_then_validity_check env self0
           (PStr "app-id") (PStr "app-secret")
           (PStr "https://localhost/callback") (PStr "refresh-0") blank
           (mkResponse 200 "OK" "" (Some (PDict (token_json "abc123" 1800))))
           (token_json "abc123" 1800) (PStr "abc123") (PInt 1800) 1800).
  - exact self0_constructed.
  - exact self0_configured.
  - reflexivity.
  - left; cbn; lia.
  - reflexivity.
  - vm_compute; reflexivity.
  - vm_compute; reflexivity.
  - reflexivity.
Defined.
